(** * Jagged nested tensors: the registry of ragged sizes, the wrapper and its hooks

    A shallow embedding of [torch/nested/_internal/nested_tensor.py].

    Python objects are modelled by what the module reads of them: a dense
    tensor is its identity ([id()]), shape, strides, dtype and device; the
    wrapper is the metadata [__new__] hands to [_make_wrapper_subclass]
    together with the instance attributes [__init__] assigns one by one.
    Module globals and exceptions are threaded through a state-and-exception
    monad.  Tensors are live objects throughout: the collection of a registry
    entry once its key is unreachable is not modelled. *)

From stdpp Require Import base option list gmap strings.
From Stdlib Require Import ZArith Lia.

Local Open Scope Z_scope.

(** ** Exceptions and the two monads *)

(** An operator ([func] in the dispatch hooks) is known by its qualified name. *)
Definition Func : Type := string.

(** The exceptions the module raises or lets through, with their arguments. *)
Inductive PyExc : Type :=
| AssertionError
| IndexError
| KeyError (key : string)
| AttributeError (attr : string)
| ValueError (msg : string)
| RuntimeError (msg : string)
| NotImplementedError (func : Func).

(** [type(e).__name__] *)
Definition exc_name (e : PyExc) : string :=
  match e with
  | AssertionError => "AssertionError"
  | IndexError => "IndexError"
  | KeyError _ => "KeyError"
  | AttributeError _ => "AttributeError"
  | ValueError _ => "ValueError"
  | RuntimeError _ => "RuntimeError"
  | NotImplementedError _ => "NotImplementedError"
  end.

(** What evaluating a Python expression ends in. *)
Inductive outcome (A : Type) : Type :=
| Ok (a : A)
| Raise (e : PyExc).
Arguments Ok {A} a.
Arguments Raise {A} e.

#[global] Instance outcome_ret : MRet outcome := fun A a => Ok a.
#[global] Instance outcome_bind : MBind outcome := fun A B f m =>
  match m with
  | Ok a => f a
  | Raise e => Raise e
  end.

(** Code that also reads and writes a state [S]; an exception keeps the
    state as it was when it was raised. *)
Definition M (S A : Type) : Type := S -> S * outcome A.

#[global] Instance M_ret {S} : MRet (M S) := fun A a s => (s, Ok a).
#[global] Instance M_bind {S} : MBind (M S) := fun A B f m s =>
  match m s with
  | (s', Ok a) => f a s'
  | (s', Raise e) => (s', Raise e)
  end.

Definition raise {S A} (e : PyExc) : M S A := fun s => (s, Raise e).
Definition gets {S A} (f : S -> A) : M S A := fun s => (s, Ok (f s)).
Definition modify {S} (f : S -> S) : M S unit := fun s => (f s, Ok tt).
Definition lift_outcome {S A} (o : outcome A) : M S A := fun s => (s, o).

(** [assert b] *)
Definition py_assert {S} (b : bool) : M S unit :=
  if b then mret tt else raise AssertionError.

(** [t[i]] on a tuple or list *)
Definition py_index {A} (t : list A) (i : Z) : outcome A :=
  let j := if i <? 0 then Z.of_nat (length t) + i else i in
  if j <? 0 then Raise IndexError
  else match t !! Z.to_nat j with
       | Some x => Ok x
       | None => Raise IndexError
       end.

(** [o.name] where the attribute may not have been assigned yet *)
Definition py_getattr {A} (name : string) (field : option A) : outcome A :=
  match field with
  | Some x => Ok x
  | None => Raise (AttributeError name)
  end.

(** [d[key]] on a dict with string keys *)
Definition py_getitem {A} (d : gmap string A) (key : string) : outcome A :=
  match d !! key with
  | Some x => Ok x
  | None => Raise (KeyError key)
  end.

(** ** Data model *)

Inductive DType : Type := float16 | float32 | float64 | int32 | int64 | bool_.
Inductive Device : Type := cpu | cuda (index : nat) | meta_device.

#[global] Instance DType_eq_dec : EqDecision DType.
Proof. solve_decision. Defined.
#[global] Instance Device_eq_dec : EqDecision Device.
Proof. solve_decision. Defined.

(** Entries of a size or stride tuple: a Python int, or the singleton int
    [torch._C._get_singleton_int(seed, coeff)] standing for a ragged extent.
    The symbolic-integer type itself lives outside this module; the spec has
    a symbol be "an opaque integer-like token" with an identity seed and "a
    multiplicative coefficient". *)
Inductive SymInt : Type :=
| PyInt (z : Z)
| SingletonInt (seed : Z) (coeff : Z).

#[global] Instance SymInt_eq_dec : EqDecision SymInt.
Proof. solve_decision. Defined.

(** Modelled from the spec: [torch._C._get_singleton_int] mints "a new
    symbol with a monotonically increasing internal counter as its identity
    seed", tagged with the coefficient. *)
Definition _get_singleton_int (seed coeff : Z) : SymInt := SingletonInt seed coeff.

(** Modelled from the spec: the product of a size entry with a Python int
    ([ragged_size * stride[0]]); the symbolic-integer type lives outside this
    module.  The spec has the symbol carry "a multiplicative coefficient used
    when the symbol appears scaled in a stride expression": scaling keeps the
    token and multiplies its coefficient. *)
Definition sym_mul (a : SymInt) (k : Z) : SymInt :=
  match a with
  | PyInt z => PyInt (z * k)
  | SingletonInt seed coeff => SingletonInt seed (coeff * k)
  end.

(** A dense [torch.Tensor].  [tid] is the object's identity: two tensors with
    equal contents and different [tid] are different objects.  [elems] holds
    the elements of an integer tensor built by this module (offsets); the
    elements of other tensors are never read here and are left empty.
    [free_symbols] is what [has_free_symbols] reports for the tensor. *)
Record Tensor : Type := mkTensor {
  tid : positive;
  shape : list Z;
  stride : list Z;
  dtype : DType;
  device : Device;
  elems : list Z;
  free_symbols : bool
}.

Definition ndim (t : Tensor) : Z := Z.of_nat (length (shape t)).

(** Modelled from the spec: [has_free_symbols] is imported from
    [torch.fx.experimental.symbolic_shapes]; it tells whether the tensor
    "still carries unresolved symbolic content". *)
Definition has_free_symbols (t : Tensor) : bool := free_symbols t.

(** A [NestedTensor] object.  [nt_dtype], [nt_device] and [requires_grad] are
    fixed by [__new__]; the five attributes are [None] until [__init__]
    assigns them. *)
Record NestedTensor : Type := mkNestedTensor {
  nt_dtype : DType;
  nt_device : Device;
  requires_grad : bool;
  _size : option (list SymInt);
  _strides : option (list SymInt);
  _ragged_idx : option Z;
  _values : option Tensor;
  _offsets : option Tensor
}.

(** What a caller may pass where a tensor is expected. *)
Inductive AnyTensor : Type :=
| Plain (t : Tensor)
| Jagged (nt : NestedTensor).

Definition any_dtype (v : AnyTensor) : DType :=
  match v with Plain t => dtype t | Jagged nt => nt_dtype nt end.
Definition any_device (v : AnyTensor) : Device :=
  match v with Plain t => device t | Jagged nt => nt_device nt end.

(** [isinstance(v, NestedTensor)] *)
Definition isinstance_NestedTensor (v : AnyTensor) : bool :=
  match v with Plain _ => false | Jagged _ => true end.

(** ** Module state *)

(** The module globals [_tensor_id_counter] and [_tensor_symint_registry] (a
    [WeakTensorKeyDictionary]: keyed by the identity of a live tensor), the
    interpreter's torch-function-subclass switch, and the next identity the
    allocator hands to a tensor created by a kernel. *)
Record World : Type := mkWorld {
  _tensor_id_counter : Z;
  _tensor_symint_registry : gmap positive SymInt;
  torch_function_subclass_enabled : bool;
  next_tid : positive
}.

Definition set_counter (c : Z) (w : World) : World :=
  mkWorld c (_tensor_symint_registry w) (torch_function_subclass_enabled w) (next_tid w).
Definition set_registry (r : gmap positive SymInt) (w : World) : World :=
  mkWorld (_tensor_id_counter w) r (torch_function_subclass_enabled w) (next_tid w).
Definition set_torch_function_subclass_enabled (b : bool) (w : World) : World :=
  mkWorld (_tensor_id_counter w) (_tensor_symint_registry w) b (next_tid w).
Definition set_next_tid (p : positive) (w : World) : World :=
  mkWorld (_tensor_id_counter w) (_tensor_symint_registry w)
          (torch_function_subclass_enabled w) p.

(** [_tensor_symint_registry[tensor] = s] *)
Definition registry_setitem (tensor : Tensor) (s : SymInt) (w : World) : World :=
  set_registry (<[tid tensor := s]> (_tensor_symint_registry w)) w.

(** Lines 9-10: the globals as the module body first binds them. *)
Definition initial_world : World := mkWorld 0 ∅ true 1%positive.

(** ** The registry: [get_tensor_symint] *)

Definition get_tensor_symint (tensor : Tensor) (coeff : Z) : M World SymInt :=
  registry ← gets _tensor_symint_registry;
  (if bool_decide (tid tensor ∉ dom registry) then
     counter ← gets _tensor_id_counter;
     modify (registry_setitem tensor (_get_singleton_int counter coeff));;
     modify (set_counter (counter + 1))
   else mret tt);;
  registry ← gets _tensor_symint_registry;
  match registry !! tid tensor with
  | Some s => mret s
  | None => raise (KeyError "tensor")
  end.

(** ** The wrapper: [NestedTensor.__new__] and [NestedTensor.__init__] *)

(** [__new__] builds the wrapper object through [_make_wrapper_subclass],
    which is handed the dtype and device of [values] and [requires_grad] from
    the keyword arguments ([False] when absent); the new object has no
    instance attribute yet. *)
Definition __new__ (values : AnyTensor) (offsets : option Tensor)
    (kwargs : gmap string bool) : NestedTensor :=
  mkNestedTensor (any_dtype values) (any_device values)
                 (default false (kwargs !! "requires_grad"))
                 None None None None None.

(** [__init__] runs on the pair of the globals and [self]. *)
Definition in_world {A} (m : M World A) : M (World * NestedTensor) A :=
  fun s => let '(w', r) := m s.1 in ((w', s.2), r).
Definition setattr (f : NestedTensor -> NestedTensor) : M (World * NestedTensor) unit :=
  modify (fun s => (s.1, f s.2)).

Definition set__size (v : list SymInt) (self : NestedTensor) : NestedTensor :=
  mkNestedTensor (nt_dtype self) (nt_device self) (requires_grad self)
                 (Some v) (_strides self) (_ragged_idx self) (_values self) (_offsets self).
Definition set__strides (v : list SymInt) (self : NestedTensor) : NestedTensor :=
  mkNestedTensor (nt_dtype self) (nt_device self) (requires_grad self)
                 (_size self) (Some v) (_ragged_idx self) (_values self) (_offsets self).
Definition set__ragged_idx (v : Z) (self : NestedTensor) : NestedTensor :=
  mkNestedTensor (nt_dtype self) (nt_device self) (requires_grad self)
                 (_size self) (_strides self) (Some v) (_values self) (_offsets self).
Definition set__values (v : Tensor) (self : NestedTensor) : NestedTensor :=
  mkNestedTensor (nt_dtype self) (nt_device self) (requires_grad self)
                 (_size self) (_strides self) (_ragged_idx self) (Some v) (_offsets self).
Definition set__offsets (v : Tensor) (self : NestedTensor) : NestedTensor :=
  mkNestedTensor (nt_dtype self) (nt_device self) (requires_grad self)
                 (_size self) (_strides self) (_ragged_idx self) (_values self) (Some v).

Definition __init__ (values : AnyTensor) (offsets : option Tensor)
    (kwargs : gmap string bool) : M (World * NestedTensor) unit :=
  match offsets with
  | None => raise AssertionError                    (* assert offsets is not None *)
  | Some offsets =>
    py_assert (ndim offsets =? 1);;                 (* assert offsets.ndim == 1 *)
    match values with
    | Jagged _ => raise AssertionError              (* assert not isinstance(values, NestedTensor) *)
    | Plain values =>
      ragged_size ← in_world (get_tensor_symint offsets 1);
      shape0 ← lift_outcome (py_index (shape offsets) 0);
      let B := shape0 - 1 in
      let Ds := drop 1 (shape values) in
      setattr (set__size (PyInt B :: ragged_size :: (PyInt <$> Ds)));;
      let stride := stride values in
      stride0 ← lift_outcome (py_index stride 0);
      setattr (set__strides (sym_mul ragged_size stride0 :: (PyInt <$> stride)));;
      setattr (set__ragged_idx 1);;
      setattr (set__values values);;
      setattr (set__offsets offsets)
    end
  end.

(** The call [NestedTensor(values, offsets, **kwargs)]: [__new__], then
    [__init__] on the new object, which is the call's value. *)
Definition NestedTensor_call (values : AnyTensor) (offsets : option Tensor)
    (kwargs : gmap string bool) : M World NestedTensor :=
  fun w =>
    let self := __new__ values offsets kwargs in
    match __init__ values offsets kwargs (w, self) with
    | ((w', self'), Ok _) => (w', Ok self')
    | ((w', _), Raise e) => (w', Raise e)
    end.

(** [NestedTensor.offsets] *)
Definition offsets (self : NestedTensor) : outcome Tensor :=
  py_getattr "_offsets" (_offsets self).

(** ** Serialization hooks *)

(** The context dict [__tensor_flatten__] builds, its two keys as fields. *)
Record FlattenCtx : Type := mkFlattenCtx {
  ctx_requires_grad : bool;
  ctx_ragged_size : SymInt
}.

Definition __tensor_flatten__ (self : NestedTensor) : outcome (list string * FlattenCtx) :=
  size ← py_getattr "_size" (_size self);
  ragged_idx ← py_getattr "_ragged_idx" (_ragged_idx self);
  ragged_size ← py_index size ragged_idx;
  mret (["_values"; "_offsets"], mkFlattenCtx (requires_grad self) ragged_size).

(** Modelled from the spec: the caller of the flatten hook is outside this
    module; it reads each named attribute off the wrapper ("only the two
    buffers and the context are transported") and hands the resulting dict
    to the unflatten hook. *)
Definition getattr_tensor (self : NestedTensor) (attr : string) : outcome Tensor :=
  if bool_decide (attr = "_values") then py_getattr attr (_values self)
  else if bool_decide (attr = "_offsets") then py_getattr attr (_offsets self)
  else Raise (AttributeError attr).

Fixpoint inner_tensors_of (self : NestedTensor) (attrs : list string)
    : outcome (gmap string Tensor) :=
  match attrs with
  | [] => Ok ∅
  | attr :: rest =>
    t ← getattr_tensor self attr;
    d ← inner_tensors_of self rest;
    mret (<[attr := t]> d)
  end.

Definition __tensor_unflatten__ (inner_tensors : gmap string Tensor) (meta : FlattenCtx)
    : M World NestedTensor :=
  py_assert (bool_decide (size inner_tensors = 2%nat));;
  values ← lift_outcome (py_getitem inner_tensors "_values");
  offsets ← lift_outcome (py_getitem inner_tensors "_offsets");
  (if has_free_symbols offsets || has_free_symbols values then
     modify (registry_setitem offsets (ctx_ragged_size meta))
   else mret tt);;
  NestedTensor_call (Plain values) (Some offsets)
                    {["requires_grad" := ctx_requires_grad meta]}.

(** ** Dispatch hooks *)

(** Modelled from the spec: [with torch._C.DisableTorchFunctionSubclass():
    body] runs [body] "with wrapper-type interception disabled ... for this
    one call": the switch is off while [body] runs and is put back
    afterwards, also when [body] raises. *)
Definition DisableTorchFunctionSubclass {A} (body : M World A) : M World A :=
  fun w =>
    let old := torch_function_subclass_enabled w in
    let '(w', r) := body (set_torch_function_subclass_enabled false w) in
    (set_torch_function_subclass_enabled old w', r).

Section Dispatch.

(** Positional arguments, keyword arguments and results of operators. *)
Variables Args Kwargs Result : Type.
(** [{}] *)
Variable empty_kwargs : Kwargs.
(** [from .ops import lookup_jagged]: the per-operation rule table.  A rule
    is called as [fn( *args, **kwargs)]. *)
Variable lookup_jagged :
  Func -> Args -> Kwargs -> option (Args -> Kwargs -> M World Result).
(** [from .ops import jagged_torch_function]: the function-level rules. *)
Variable jagged_torch_function : Func -> Args -> Kwargs -> M World Result.
(** [func( *args, **kwargs)]: running the operator itself. *)
Variable call_func : Func -> Args -> Kwargs -> M World Result.

Definition __torch_dispatch__ (func : Func) (args : Args) (kwargs : option Kwargs)
    : M World Result :=
  let kwargs := default empty_kwargs kwargs in
  match lookup_jagged func args kwargs with
  | Some fn => fn args kwargs
  | None => raise (NotImplementedError func)
  end.

Definition __torch_function__ (func : Func) (args : Args) (kwargs : option Kwargs)
    : M World Result :=
  let kwargs := default empty_kwargs kwargs in
  fun w =>
    match jagged_torch_function func args kwargs w with
    | (w', Ok r) => (w', Ok r)
    | (w', Raise (NotImplementedError _)) =>        (* except NotImplementedError: pass *)
      DisableTorchFunctionSubclass (call_func func args kwargs) w'
    | (w', Raise e) => (w', Raise e)
    end.

End Dispatch.

(** ** The differentiable boundary *)

Module DifferentiableValues.

(** The autograd context object [ctx]. *)
Record FunctionCtx : Type := mkFunctionCtx { saved_tensors : list Tensor }.

Definition save_for_backward (ctx : FunctionCtx) (tensors : list Tensor) : FunctionCtx :=
  mkFunctionCtx tensors.

Definition forward (ctx : FunctionCtx) (x : NestedTensor) : outcome (FunctionCtx * Tensor) :=
  x_offsets ← offsets x;
  let ctx := save_for_backward ctx [x_offsets] in
  x_values ← py_getattr "_values" (_values x);
  mret (ctx, x_values).

Definition backward (ctx : FunctionCtx) (gO : AnyTensor) : M World NestedTensor :=
  match saved_tensors ctx with
  | [offsets] => NestedTensor_call gO (Some offsets) ∅   (* (offsets,) = ctx.saved_tensors *)
  | [] => raise (ValueError "not enough values to unpack (expected 1, got 0)")
  | _ :: _ :: _ => raise (ValueError "too many values to unpack (expected 1)")
  end.

(** Modelled from the spec: [torch.autograd.Function.apply] belongs to the
    autograd engine; it runs [forward] on a context of its own and keeps that
    context for the backward call ("a forward/backward pair with a context
    object for cross-call state"). *)
Definition apply (x : NestedTensor) : outcome (FunctionCtx * Tensor) :=
  forward (mkFunctionCtx []) x.

End DifferentiableValues.

(** [NestedTensor.values] *)
Definition values (self : NestedTensor) : outcome (DifferentiableValues.FunctionCtx * Tensor) :=
  DifferentiableValues.apply self.

(** ** Dense kernels used by the construction helper *)

(** The kernels below belong to the dense-array layer.  Each is modelled from
    the spec on the inputs [jagged_from_list] hands it: what the result's
    shape, dtype, device and (for integer tensors built here) elements are. *)

(** Modelled from the spec: the strides of a tensor a kernel creates, the
    row-major ones of its shape. *)
Fixpoint contiguous_stride (shape : list Z) : list Z :=
  match shape with
  | [] => []
  | _ :: rest => foldr Z.mul 1 (Z.max 1 <$> rest) :: contiguous_stride rest
  end.

(** Modelled from the spec: a tensor created by a kernel is a new object,
    with a new identity from the allocator. *)
Definition new_tensor (shape : list Z) (dtype : DType) (device : Device)
    (elems : list Z) : M World Tensor :=
  p ← gets next_tid;
  modify (set_next_tid (Pos.succ p));;
  mret (mkTensor p shape (contiguous_stride shape) dtype device elems false).

(** Modelled from the spec: [torch.cat(tensors, dim=0)] "concatenates all
    elements along the leading axis": the leading extents add up, the rest of
    the shape, the dtype and the device are the elements'. *)
Definition torch_cat (tensors : list Tensor) : M World Tensor :=
  match tensors with
  | [] => raise (RuntimeError "torch.cat(): expected a non-empty list of Tensors")
  | t0 :: _ =>
    match mapM (fun t => head (shape t)) tensors with
    | None => raise (RuntimeError "zero-dimensional tensor cannot be concatenated")
    | Some lens =>
      new_tensor (foldr Z.add 0 lens :: drop 1 (shape t0)) (dtype t0) (device t0)
                 (concat (elems <$> tensors))
    end
  end.

(** Modelled from the spec: [values.to( **to_kwargs)] "applies requested
    dtype/device conversion": the tensor itself when nothing changes, a
    converted copy otherwise. *)
Definition tensor_to (t : Tensor) (to_device : option Device) (to_dtype : option DType)
    : M World Tensor :=
  let dev := default (device t) to_device in
  let dt := default (dtype t) to_dtype in
  if bool_decide (dev = device t ∧ dt = dtype t) then mret t
  else
    p ← gets next_tid;
    modify (set_next_tid (Pos.succ p));;
    mret (mkTensor p (shape t) (stride t) dt dev (elems t) (free_symbols t)).

(** 64-bit two's complement wrap-around. *)
Definition wrap64 (z : Z) : Z := (z + 2 ^ 63) mod 2 ^ 64 - 2 ^ 63.

Definition in_int64 (z : Z) : bool := (- 2 ^ 63 <=? z) && (z <? 2 ^ 63).

(** Modelled from the spec: [torch.zeros(n, dtype=..., device=...)], [n]
    zeros of that dtype on that device. *)
Definition torch_zeros (n : Z) (dtype : DType) (device : Device) : M World Tensor :=
  new_tensor [n] dtype device (replicate (Z.to_nat n) 0).

(** Modelled from the spec: [torch.tensor(data, device=...)] on a list of
    Python ints, "a 64-bit integer sequence" on that device (a float32 tensor
    when the list is empty; no tensor when an int does not fit 64 bits). *)
Definition torch_tensor (data : list Z) (device : Device) : M World Tensor :=
  if forallb in_int64 data then
    new_tensor [Z.of_nat (length data)]
               (match data with [] => float32 | _ => int64 end) device data
  else raise (RuntimeError "Overflow when unpacking long").

(** Running sums in 64-bit arithmetic. *)
Fixpoint cumsum_from (acc : Z) (l : list Z) : list Z :=
  match l with
  | [] => []
  | x :: rest => let acc' := wrap64 (acc + x) in acc' :: cumsum_from acc' rest
  end.

(** Modelled from the spec: [t.cumsum(dim=0)] on a rank-1 tensor, its
    "prefix sum", in the tensor's 64-bit arithmetic. *)
Definition cumsum (t : Tensor) : M World Tensor :=
  new_tensor (shape t) (dtype t) (device t) (cumsum_from 0 (elems t)).

(** ** The construction helper *)

(** Modelled from the spec: [torch._nested_view_from_values_offsets] is
    routed by the dispatch hooks to a rule kept in [ops.py]; the spec has the
    helper return "the constructed wrapper", [construct(values, offsets)]. *)
Definition nested_view_from_values_offsets (values offsets : Tensor) : M World NestedTensor :=
  NestedTensor_call (Plain values) (Some offsets) ∅.

Definition msg_dtype : string :=
  "When constructing a nested tensor, all tensors in list must have the same dtype".
Definition msg_device : string :=
  "When constructing a nested tensor, all tensors in list must be on the same device".
Definition msg_jagged : string :=
  "Cannot represent given tensor list as a nested tensor with the jagged layout. Note that the jagged layout only represents shapes of the form (B, *, D_0, D_1, ..., D_N), with only * allowed to be ragged.".

Definition jagged_from_list (tensors : list Tensor) (offsets : option Tensor)
    (dtype_arg : option DType) (device_arg : option Device)
    : M World (NestedTensor * Tensor) :=
  if negb (bool_decide (length (remove_dups (dtype <$> tensors)) = 1%nat)) then
    raise (RuntimeError msg_dtype)
  else if negb (bool_decide (length (remove_dups (device <$> tensors)) = 1%nat)) then
    raise (RuntimeError msg_device)
  else
    let sizes := shape <$> tensors in
    let non_first_sizes := drop 1 <$> sizes in
    let at_most_first_ragged :=
      forallb (fun s => bool_decide (Some s = non_first_sizes !! 0%nat)) non_first_sizes in
    if negb at_most_first_ragged then raise (RuntimeError msg_jagged)
    else
      values ← torch_cat tensors;
      values ← tensor_to values device_arg dtype_arg;
      offsets ←
        match offsets with
        | None =>
          zero ← torch_zeros 1 int64 (device values);
          lens ← lift_outcome (mapM (fun s => py_index s 0) sizes);
          lens_t ← torch_tensor lens (device values);
          sums ← cumsum lens_t;
          torch_cat [zero; sums]
        | Some offsets => mret offsets
        end;
      nt ← nested_view_from_values_offsets values offsets;
      mret (nt, offsets).

(** The module body: the globals of lines 9-10, then the dummy wrapper of
    line 270 built from two fresh one-element meta tensors. *)
Definition module_body : M World NestedTensor :=
  v ← new_tensor [1; 1] float32 meta_device [];
  o ← new_tensor [1] float32 meta_device [];
  NestedTensor_call (Plain v) (Some o) ∅.

Definition imported_world : World := (module_body initial_world).1.

(** A session after the import, in which user code has created the tensors
    with identities below 100. *)
Definition session_world : World := set_next_tid 100 imported_world.

(** ** Vocabulary of the statements *)

(** The token of a ragged-size symbol: the counter value it was minted from.
    Two symbols are the same token when their seeds agree, whatever their
    coefficients. *)
Definition symbol_token (s : SymInt) : option Z :=
  match s with
  | SingletonInt seed _ => Some seed
  | PyInt _ => None
  end.

(** A run of resolve calls, one after the other, with the symbols returned. *)
Fixpoint resolve_each (calls : list (Tensor * Z)) : M World (list SymInt) :=
  match calls with
  | [] => mret []
  | (tensor, coeff) :: rest =>
    s ← get_tensor_symint tensor coeff;
    ss ← resolve_each rest;
    mret (s :: ss)
  end.

(** Every registered symbol was minted from a counter value already passed. *)
Definition minted_below (w : World) : Prop :=
  ∀ k s, _tensor_symint_registry w !! k = Some s →
    ∃ seed coeff, s = SingletonInt seed coeff ∧ seed < _tensor_id_counter w.

(** No token is registered for two tensors. *)
Definition tokens_injective (w : World) : Prop :=
  ∀ k1 k2 s1 s2,
    _tensor_symint_registry w !! k1 = Some s1 →
    _tensor_symint_registry w !! k2 = Some s2 →
    symbol_token s1 = symbol_token s2 → k1 = k2.

(** The registry as [get_tensor_symint] alone fills it. *)
Definition registry_ok (w : World) : Prop := minted_below w ∧ tokens_injective w.

(** The instance attributes assigned so far, in the order [__init__]
    assigns them. *)
Definition attributes_set (self : NestedTensor) : list string :=
  (if _size self is Some _ then ["_size"] else []) ++
  (if _strides self is Some _ then ["_strides"] else []) ++
  (if _ragged_idx self is Some _ then ["_ragged_idx"] else []) ++
  (if _values self is Some _ then ["_values"] else []) ++
  (if _offsets self is Some _ then ["_offsets"] else []).

(** The sequence [acc + len_0, acc + len_0 + len_1, ...]. *)
Fixpoint running_sums (acc : Z) (lens : list Z) : list Z :=
  match lens with
  | [] => []
  | len :: rest => (acc + len) :: running_sums (acc + len) rest
  end.

(** An element of a list [jagged_from_list] accepts: the list's dtype and
    device, a leading extent [len] and the list's trailing shape. *)
Definition list_row (dt : DType) (dev : Device) (trailing : list Z)
    (t : Tensor) (len : Z) : Prop :=
  dtype t = dt ∧ device t = dev ∧ shape t = len :: trailing ∧ 0 ≤ len.

(** ** Sample objects *)

(** A values buffer of shape (8, 4) and two offsets buffers with the same
    contents that are different objects. *)
Definition values_a : Tensor := mkTensor 10 [8; 4] [4; 1] float32 cpu [] false.
Definition offsets_a : Tensor := mkTensor 11 [3] [1] int64 cpu [0; 3; 8] false.
Definition offsets_b : Tensor := mkTensor 12 [3] [1] int64 cpu [0; 3; 8] false.
(** A rank-2 tensor in the place of offsets, and a rank-0 tensor in the place
    of values. *)
Definition offsets_2d : Tensor := mkTensor 13 [3; 1] [1; 1] int64 cpu [0; 3; 8] false.
Definition values_0d : Tensor := mkTensor 14 [] [] float32 cpu [] false.
(** A gradient for [values_a]. *)
Definition grad_a : Tensor := mkTensor 15 [8; 4] [4; 1] float32 cpu [] false.

(** The wrapper [NestedTensor(values_a, offsets_a)] as the session builds it
    first: seed 0 went to the offsets of the module's dummy wrapper. *)
Definition wrapper_a : NestedTensor :=
  mkNestedTensor float32 cpu false
    (Some [PyInt 2; SingletonInt 1 1; PyInt 4])
    (Some [SingletonInt 1 4; PyInt 4; PyInt 1])
    (Some 1) (Some values_a) (Some offsets_a).

(** Lists for the construction helper: two float32 arrays of shapes (3, 4)
    and (5, 4), one of shape (5, 5), and a float64 one. *)
Definition t_3x4 : Tensor := mkTensor 20 [3; 4] [4; 1] float32 cpu [] false.
Definition t_5x4 : Tensor := mkTensor 21 [5; 4] [4; 1] float32 cpu [] false.
Definition t_5x5 : Tensor := mkTensor 22 [5; 5] [5; 1] float32 cpu [] false.
Definition t_f64 : Tensor := mkTensor 23 [3; 4] [4; 1] float64 cpu [] false.

(** A rule table with one kernel-level rule, function-level rules that
    decline every operator but one, and an operator implementation that
    reports whether it ran with the subclass switch off. *)
Definition sample_lookup_jagged (func : Func) (args : list AnyTensor)
    (kwargs : gmap string bool)
    : option (list AnyTensor → gmap string bool → M World (list AnyTensor)) :=
  if bool_decide (func = "aten.detach.default") then Some (λ args _, mret args) else None.

Definition sample_jagged_torch_function (func : Func) (args : list AnyTensor)
    (kwargs : gmap string bool) : M World (list AnyTensor) :=
  if bool_decide (func = "torch.flatten") then mret args
  else raise (NotImplementedError func).

Definition sample_call_func (func : Func) (args : list AnyTensor)
    (kwargs : gmap string bool) : M World (list AnyTensor) :=
  fun w =>
    if torch_function_subclass_enabled w
    then (w, Raise (RuntimeError "re-entered __torch_function__"))
    else (w, Ok args).

(** Placeholders standing in for [values_a] and [offsets_a] while their
    shapes are still symbolic. *)
Definition values_fake : Tensor := mkTensor 30 [8; 4] [4; 1] float32 meta_device [] true.
Definition offsets_fake : Tensor := mkTensor 31 [3] [1] int64 meta_device [] true.

(** The globals right after the session built [wrapper_a]. *)
Definition world_a : World :=
  (NestedTensor_call (Plain values_a) (Some offsets_a) ∅ session_world).1.

(** ** Pickling: [NestedTensor.__reduce_ex__] *)

(** The values instance attributes hold. *)
Inductive AttrVal : Type :=
| AttrTuple (t : list SymInt)
| AttrInt (z : Z)
| AttrTensor (t : Tensor).

Definition set_entry {A} (name : string) (wrap : A → AttrVal) (field : option A)
    (d : gmap string AttrVal) : gmap string AttrVal :=
  match field with
  | Some v => <[name := wrap v]> d
  | None => d
  end.

(** The instance dict of a wrapper: an entry per attribute assigned so far. *)
Definition instance_dict (self : NestedTensor) : gmap string AttrVal :=
  set_entry "_size" AttrTuple (_size self)
    (set_entry "_strides" AttrTuple (_strides self)
       (set_entry "_ragged_idx" AttrInt (_ragged_idx self)
          (set_entry "_values" AttrTensor (_values self)
             (set_entry "_offsets" AttrTensor (_offsets self) ∅)))).

(** Modelled from the spec: [torch._utils._get_obj_state] is the "generic
    attribute-state capture" of an object, its instance attributes by name. *)
Definition _get_obj_state (self : NestedTensor) : gmap string AttrVal :=
  instance_dict self.

(** [del d[key]] *)
Definition py_delitem {A} (d : gmap string A) (key : string) : outcome (gmap string A) :=
  if bool_decide (key ∈ dom d) then Ok (delete key d) else Raise (KeyError key).

(** What [__reduce_ex__] returns: the rebuild function and its arguments
    [(func, type(self), args, state)]; callables and classes by name. *)
Record ReduceValue : Type := mkReduceValue {
  reduce_rebuild : string;
  reduce_func : string;
  reduce_type : string;
  reduce_args : Tensor * Tensor;
  reduce_state : gmap string AttrVal
}.

Definition __reduce_ex__ (self : NestedTensor) (proto : Z) : outcome ReduceValue :=
  let state := _get_obj_state self in
  if negb (bool_decide ("_size" ∈ dom state) && bool_decide ("_strides" ∈ dom state))
  then Raise AssertionError
  else
    state ← py_delitem state "_size";
    state ← py_delitem state "_strides";
    self_values ← py_getattr "_values" (_values self);
    self_offsets ← py_getattr "_offsets" (_offsets self);
    mret (mkReduceValue "torch._tensor._rebuild_from_type_v2" "NestedTensor" "NestedTensor"
                        (self_values, self_offsets) state).

(** ** Vocabulary of the further statements *)

(** Every registered tensor got its identity from the allocator already. *)
Definition alloc_ok (w : World) : Prop :=
  ∀ k, k ∈ dom (_tensor_symint_registry w) → (k < next_tid w)%positive.

(** A wrapper object on which [__init__] stopped after assigning [_size]. *)
Definition wrapper_partial : NestedTensor :=
  mkNestedTensor float32 cpu false
    (Some [PyInt 2; SingletonInt 1 1]) None None None None.

(** A second values buffer for [offsets_a], of another trailing extent. *)
Definition values_c : Tensor := mkTensor 16 [8; 7] [7; 1] float64 cpu [] false.

(** The symbols a run of resolve calls on unregistered tensors mints, from
    the counter value [counter] on. *)
Fixpoint minted_in_order (counter : Z) (calls : list (Tensor * Z)) : list SymInt :=
  match calls with
  | [] => []
  | (_, coeff) :: rest => SingletonInt counter coeff :: minted_in_order (counter + 1) rest
  end.

(** The wrappers the session builds after [wrapper_a]: one more over
    [offsets_a], and one over [offsets_b]. *)
Definition wrapper_c : NestedTensor :=
  mkNestedTensor float64 cpu false
    (Some [PyInt 2; SingletonInt 1 1; PyInt 7])
    (Some [SingletonInt 1 7; PyInt 7; PyInt 1])
    (Some 1) (Some values_c) (Some offsets_a).
Definition wrapper_b : NestedTensor :=
  mkNestedTensor float32 cpu false
    (Some [PyInt 2; SingletonInt 2 1; PyInt 4])
    (Some [SingletonInt 2 4; PyInt 4; PyInt 1])
    (Some 1) (Some values_a) (Some offsets_b).
Definition world_b : World :=
  (NestedTensor_call (Plain values_a) (Some offsets_b) ∅ world_a).1.

(** Offsets of five entries, for a list of two tensors. *)
Definition offsets_5 : Tensor := mkTensor 17 [5] [1] int64 cpu [0; 1; 2; 3; 8] false.

(** A float32 array of shape (3, 4) on another device. *)
Definition t_cuda : Tensor := mkTensor 24 [3; 4] [4; 1] float32 (cuda 0) [] false.

(** The globals after the placeholders were unflattened with the context
    [__tensor_flatten__] gives for [wrapper_a]. *)
Definition world_fake : World :=
  (__tensor_unflatten__
     (<["_values" := values_fake]> (<["_offsets" := offsets_fake]> ∅))
     (mkFlattenCtx false (SingletonInt 1 1)) world_a).1.

(** * Properties *)

(** ** The monads *)

Lemma bind_Ok {S A B} (m : M S A) (f : A → M S B) s s' a :
  m s = (s', Ok a) → (m ≫= f) s = f a s'.
Proof. intros H. unfold mbind, M_bind. by rewrite H. Qed.

Lemma bind_Raise {S A B} (m : M S A) (f : A → M S B) s s' e :
  m s = (s', Raise e) → (m ≫= f) s = (s', Raise e).
Proof. intros H. unfold mbind, M_bind. by rewrite H. Qed.

(** ** The registry *)

Lemma get_tensor_symint_hit tensor coeff w s :
  _tensor_symint_registry w !! tid tensor = Some s →
  get_tensor_symint tensor coeff w = (w, Ok s).
Proof.
  intros Hs. unfold get_tensor_symint, mbind, M_bind, gets. cbn.
  rewrite bool_decide_eq_false_2.
  - cbn. by rewrite Hs.
  - intros Hn. apply not_elem_of_dom in Hn. congruence.
Qed.

Lemma get_tensor_symint_miss tensor coeff w :
  _tensor_symint_registry w !! tid tensor = None →
  get_tensor_symint tensor coeff w =
    (set_counter (_tensor_id_counter w + 1)
       (registry_setitem tensor (_get_singleton_int (_tensor_id_counter w) coeff) w),
     Ok (_get_singleton_int (_tensor_id_counter w) coeff)).
Proof.
  intros Hs. unfold get_tensor_symint, mbind, M_bind, gets. cbn.
  rewrite bool_decide_eq_true_2 by (by apply not_elem_of_dom).
  cbn. by rewrite lookup_insert_eq.
Qed.

Lemma registry_ok_initial : registry_ok initial_world.
Proof. split; intros k; intros; simplify_map_eq. Qed.

(** The import leaves one entry: the dummy wrapper's offsets, with seed 0. *)
Example imported_world_globals :
  _tensor_id_counter imported_world = 1 ∧
  _tensor_symint_registry imported_world = {[2%positive := SingletonInt 0 1]}.
Proof. split; vm_compute; reflexivity. Qed.

Lemma registry_ok_session : registry_ok session_world.
Proof.
  destruct imported_world_globals as [Hc Hr].
  split; unfold minted_below, tokens_injective; cbn; rewrite ?Hc, Hr.
  - intros k s [<- <-]%lookup_singleton_Some. by eexists _, _.
  - intros k1 k2 s1 s2 [<- _]%lookup_singleton_Some [<- _]%lookup_singleton_Some. done.
Qed.

Lemma registry_ok_miss tensor coeff w :
  registry_ok w →
  _tensor_symint_registry w !! tid tensor = None →
  registry_ok (set_counter (_tensor_id_counter w + 1)
     (registry_setitem tensor (_get_singleton_int (_tensor_id_counter w) coeff) w)).
Proof.
  intros [Hb Hi] Hnone. split.
  - intros k s. cbn. rewrite lookup_insert. case_decide as Hk.
    + intros [= <-]. eexists _, _. split; [done | lia].
    + intros Hs. destruct (Hb k s Hs) as (seed & c & -> & Hlt).
      eexists _, _. split; [done | lia].
  - intros k1 k2 s1 s2. cbn. rewrite !lookup_insert.
    case_decide as H1; case_decide as H2; subst.
    + done.
    + intros [= <-] Hs2 Ht. destruct (Hb k2 s2 Hs2) as (seed & c & -> & Hlt).
      cbn in Ht. injection Ht as Ht. lia.
    + intros Hs1 [= <-] Ht. destruct (Hb k1 s1 Hs1) as (seed & c & -> & Hlt).
      cbn in Ht. injection Ht as Ht. lia.
    + apply Hi.
Qed.

(** One resolve: it returns, the symbol it returns is the one registered
    afterwards, nothing registered before is lost or changed, and the counter
    does not go back. *)
Lemma get_tensor_symint_spec tensor coeff w :
  registry_ok w →
  ∃ w' s,
    get_tensor_symint tensor coeff w = (w', Ok s) ∧
    _tensor_symint_registry w' !! tid tensor = Some s ∧
    _tensor_symint_registry w ⊆ _tensor_symint_registry w' ∧
    _tensor_id_counter w ≤ _tensor_id_counter w' ∧
    registry_ok w'.
Proof.
  intros Hok. destruct (_tensor_symint_registry w !! tid tensor) as [s|] eqn:Hs.
  - exists w, s. rewrite (get_tensor_symint_hit _ _ _ _ Hs).
    split_and!; [done | done | done | lia | done].
  - eexists _, _. rewrite (get_tensor_symint_miss _ _ _ Hs).
    split_and!; [done | cbn; by rewrite lookup_insert_eq | | cbn; lia | ].
    + by apply insert_subseteq.
    + by apply registry_ok_miss.
Qed.

Lemma resolve_each_spec calls : ∀ w,
  registry_ok w →
  ∃ w' symbols,
    resolve_each calls w = (w', Ok symbols) ∧
    Forall2 (λ call s, _tensor_symint_registry w' !! tid call.1 = Some s) calls symbols ∧
    _tensor_symint_registry w ⊆ _tensor_symint_registry w' ∧
    _tensor_id_counter w ≤ _tensor_id_counter w' ∧
    registry_ok w'.
Proof.
  induction calls as [|[t c] rest IH]; intros w Hok.
  - exists w, []. split_and!; [done | done | done | lia | done].
  - destruct (get_tensor_symint_spec t c w Hok) as (w1 & s & Hg & Hs & Hsub & Hle & Hok1).
    destruct (IH w1 Hok1) as (w2 & ss & Hr & Hall & Hsub2 & Hle2 & Hok2).
    exists w2, (s :: ss). cbn [resolve_each].
    rewrite (bind_Ok _ _ _ _ _ Hg), (bind_Ok _ _ _ _ _ Hr).
    split_and!; [done | | by etrans | lia | done].
    constructor; [| done]. cbn. by eapply lookup_weaken.
Qed.

(** A run from any state: the calls all return, and the symbols of the
    tensors registered during the run are minted from the counter values of
    the run, each value used for one tensor. *)
Lemma resolve_each_fresh calls : ∀ w,
  ∃ w' symbols,
    resolve_each calls w = (w', Ok symbols) ∧
    Forall2 (λ call s, _tensor_symint_registry w' !! tid call.1 = Some s) calls symbols ∧
    _tensor_symint_registry w ⊆ _tensor_symint_registry w' ∧
    _tensor_id_counter w ≤ _tensor_id_counter w' ∧
    ∀ k s, _tensor_symint_registry w' !! k = Some s →
           _tensor_symint_registry w !! k = None →
           ∃ seed coeff, s = SingletonInt seed coeff ∧
                         _tensor_id_counter w ≤ seed < _tensor_id_counter w' ∧
                         ∀ k' s', _tensor_symint_registry w' !! k' = Some s' →
                                  _tensor_symint_registry w !! k' = None →
                                  symbol_token s' = Some seed → k' = k.
Proof.
  induction calls as [|[t c] rest IH]; intros w.
  - exists w, []. split_and!; [done | done | done | lia |]. intros k s H1 H2. congruence.
  - destruct (_tensor_symint_registry w !! tid t) as [s0|] eqn:Hs0.
    + destruct (IH w) as (w2 & ss & Hr & Hall & Hsub & Hle & Hnew).
      exists w2, (s0 :: ss). cbn [resolve_each].
      rewrite (bind_Ok _ _ _ _ _ (get_tensor_symint_hit _ _ _ _ Hs0)), (bind_Ok _ _ _ _ _ Hr).
      split_and!; [done | | done | done | done].
      constructor; [| done]. cbn. by eapply lookup_weaken.
    + pose proof (get_tensor_symint_miss t c w Hs0) as Hg.
      set (w1 := set_counter _ _) in Hg.
      destruct (IH w1) as (w2 & ss & Hr & Hall & Hsub & Hle & Hnew).
      assert (_tensor_symint_registry w1 !! tid t
              = Some (SingletonInt (_tensor_id_counter w) c)) as Ht
        by (cbn; by rewrite lookup_insert_eq).
      assert (_tensor_id_counter w1 = _tensor_id_counter w + 1) as Hc by done.
      assert (∀ k, k ≠ tid t →
                _tensor_symint_registry w1 !! k = _tensor_symint_registry w !! k) as Hother
        by (intros k Hk; cbn; by rewrite lookup_insert_ne).
      exists w2, (SingletonInt (_tensor_id_counter w) c :: ss). cbn [resolve_each].
      rewrite (bind_Ok _ _ _ _ _ Hg), (bind_Ok _ _ _ _ _ Hr).
      split_and!.
      * done.
      * constructor; [| done]. cbn. by eapply lookup_weaken.
      * etrans; [| exact Hsub]. cbn. by apply insert_subseteq.
      * lia.
      * intros k s Hk Hnone. destruct (decide (k = tid t)) as [->|Hne].
        -- pose proof (lookup_weaken _ _ _ _ Ht Hsub) as Ht2.
           rewrite Ht2 in Hk. injection Hk as <-.
           eexists _, _. split_and!; [done | lia | lia |].
           intros k' s' Hk' Hnone' Htok. destruct (decide (k' = tid t)) as [->|Hne']; [done |].
           rewrite <- (Hother _ Hne') in Hnone'.
           destruct (Hnew k' s' Hk' Hnone') as (seed' & c' & -> & Hrange & _).
           cbn in Htok. injection Htok as ->. lia.
        -- rewrite <- (Hother _ Hne) in Hnone.
           destruct (Hnew k s Hk Hnone) as (seed & c0 & -> & Hrange & Huniq).
           eexists _, _. split_and!; [done | lia | lia |].
           intros k' s' Hk' Hnone' Htok. destruct (decide (k' = tid t)) as [->|Hne'].
           ++ pose proof (lookup_weaken _ _ _ _ Ht Hsub) as Ht2.
              rewrite Ht2 in Hk'. injection Hk' as <-.
              cbn in Htok. injection Htok as <-. lia.
           ++ rewrite <- (Hother _ Hne') in Hnone'. by eapply Huniq.
Qed.

(** C1 (amended).  Registry identity law.  Take any state and any run of
    resolve calls: the calls all return; two calls on the same offsets
    buffer (the same object) return the same symbol, also with other calls
    in between and with another coefficient; two calls on different objects
    return different symbols, of different tokens, whatever the contents of
    the two buffers, when neither was registered before the run, and also
    for buffers registered before it when the registry was filled by
    [get_tensor_symint] alone (no symbol registered for a placeholder by
    [__tensor_unflatten__]).  A symbol is new when the buffer is not
    registered yet: it is then minted from the current value of the counter,
    which goes up by one and never goes back. *)
Theorem registry_identity_law (w : World) (calls : list (Tensor * Z)) :
  (∀ o coeff,
     _tensor_symint_registry w !! tid o = None →
     get_tensor_symint o coeff w =
       (set_counter (_tensor_id_counter w + 1)
          (registry_setitem o (_get_singleton_int (_tensor_id_counter w) coeff) w),
        Ok (_get_singleton_int (_tensor_id_counter w) coeff))) ∧
  ∃ w' symbols,
    resolve_each calls w = (w', Ok symbols) ∧
    length symbols = length calls ∧
    _tensor_id_counter w ≤ _tensor_id_counter w' ∧
    ∀ i j o1 c1 o2 c2 s1 s2,
      calls !! i = Some (o1, c1) → symbols !! i = Some s1 →
      calls !! j = Some (o2, c2) → symbols !! j = Some s2 →
      (tid o1 = tid o2 → s1 = s2) ∧
      (tid o1 ≠ tid o2 →
       registry_ok w ∨
       (_tensor_symint_registry w !! tid o1 = None ∧
        _tensor_symint_registry w !! tid o2 = None) →
       s1 ≠ s2 ∧ symbol_token s1 ≠ symbol_token s2).
Proof.
  split; [intros o coeff; apply get_tensor_symint_miss |].
  destruct (resolve_each_fresh calls w) as (w' & symbols & Hrun & Hall & _ & Hle & Hnew).
  exists w', symbols. split_and!; [done | symmetry; by eapply Forall2_length | done |].
  intros i j o1 c1 o2 c2 s1 s2 Hci Hsi Hcj Hsj.
  pose proof (Forall2_lookup_lr _ _ _ _ _ _ Hall Hci Hsi) as H1.
  pose proof (Forall2_lookup_lr _ _ _ _ _ _ Hall Hcj Hsj) as H2.
  cbn in H1, H2. split.
  - intros Heq. rewrite Heq in H1. congruence.
  - intros Hne Hcase.
    assert (symbol_token s1 ≠ symbol_token s2) as Htok.
    { destruct Hcase as [Hok | [Hn1 Hn2]].
      - destruct (resolve_each_spec calls w Hok) as (w'' & ss & Hrun' & _ & _ & _ & _ & Hinj).
        rewrite Hrun in Hrun'. injection Hrun' as <- <-.
        intros Ht. apply Hne. by eapply Hinj.
      - destruct (Hnew _ _ H1 Hn1) as (seed & coeff & -> & _ & Huniq).
        intros Ht. apply Hne. symmetry. by eapply Huniq. }
    split; [congruence | done].
Qed.

(** Two counting facts on sets of identities. *)
Lemma size_new_registered (x : positive) (T D : gset positive) :
  x ∈ D → ({[x]} ∪ T) ∖ D = T ∖ D.
Proof.
  intros Hx. apply set_eq. intros y.
  rewrite !elem_of_difference, elem_of_union, elem_of_singleton.
  split; [intros [[->|?] ?]; done | intros [? ?]; auto].
Qed.

Lemma size_new_unregistered (x : positive) (T D : gset positive) :
  x ∉ D → size (({[x]} ∪ T) ∖ D) = Datatypes.S (size (T ∖ ({[x]} ∪ D))).
Proof.
  intros Hx.
  replace (({[x]} ∪ T) ∖ D) with ({[x]} ∪ T ∖ ({[x]} ∪ D)).
  - rewrite size_union, size_singleton; [done |].
    intros y. rewrite elem_of_singleton, elem_of_difference, elem_of_union, elem_of_singleton.
    intros -> [_ []]. by left.
  - apply set_eq. intros y.
    rewrite elem_of_union, !elem_of_difference, !elem_of_union, !elem_of_singleton.
    destruct (decide (y = x)) as [->|]; tauto.
Qed.

(** C10. A resolve of a registered offsets buffer returns the stored symbol
    and changes nothing, the counter and the registry included; a resolve of
    an unregistered one moves the counter by exactly one; so over any run of
    resolve calls the counter advances by the number of distinct offsets
    buffers in the run that were not registered before it. *)
Theorem resolve_registered_is_frame (w : World) (calls : list (Tensor * Z)) :
  (∀ o coeff s,
     _tensor_symint_registry w !! tid o = Some s →
     get_tensor_symint o coeff w = (w, Ok s)) ∧
  (∀ o coeff,
     _tensor_symint_registry w !! tid o = None →
     _tensor_id_counter (get_tensor_symint o coeff w).1 = _tensor_id_counter w + 1) ∧
  _tensor_id_counter (resolve_each calls w).1 =
    _tensor_id_counter w +
    Z.of_nat (size (list_to_set (C := gset positive) ((λ call, tid call.1) <$> calls)
                    ∖ dom (_tensor_symint_registry w))).
Proof.
  split_and!.
  - intros o coeff s. apply get_tensor_symint_hit.
  - intros o coeff Hs. by rewrite (get_tensor_symint_miss _ _ _ Hs).
  - revert w. induction calls as [|[t c] rest IH]; intros w.
    + cbn. rewrite empty_difference_L, size_empty. lia.
    + assert ((resolve_each ((t, c) :: rest) w).1 =
              (resolve_each rest (get_tensor_symint t c w).1).1) as ->.
      { cbn [resolve_each]. unfold mbind at 1, M_bind at 1.
        destruct (_tensor_symint_registry w !! tid t) as [s|] eqn:Hs.
        - rewrite (get_tensor_symint_hit _ _ _ _ Hs). cbn.
          unfold mbind, M_bind. by destruct (resolve_each rest w) as [? []].
        - rewrite (get_tensor_symint_miss _ _ _ Hs). cbn.
          unfold mbind, M_bind. by destruct (resolve_each rest _) as [? []]. }
      rewrite IH. rewrite fmap_cons. cbn [list_to_set fst].
      destruct (_tensor_symint_registry w !! tid t) as [s|] eqn:Hs.
      * rewrite (get_tensor_symint_hit _ _ _ _ Hs).
        rewrite size_new_registered; [done |]. apply elem_of_dom; eauto.
      * rewrite (get_tensor_symint_miss _ _ _ Hs). cbn. rewrite dom_insert_L.
        rewrite size_new_unregistered by (by apply not_elem_of_dom). lia.
Qed.

Lemma registry_identity_law_witness :
  registry_ok session_world ∧
  tid offsets_a ≠ tid offsets_b ∧
  ∃ w' s1 s2 s3,
    resolve_each [(offsets_a, 1); (offsets_b, 1); (offsets_a, 2)] session_world
      = (w', Ok [s1; s2; s3]) ∧
    s1 = s3 ∧ s1 ≠ s2.
Proof.
  split; [exact registry_ok_session |]. split; [discriminate |].
  destruct (registry_identity_law session_world
              [(offsets_a, 1); (offsets_b, 1); (offsets_a, 2)])
    as (_ & w' & symbols & Hrun & Hlen & _ & Hlaw).
  destruct symbols as [|s1 [|s2 [|s3 [|]]]]; try discriminate Hlen.
  exists w', s1, s2, s3. split; [exact Hrun |]. split.
  - exact (proj1 (Hlaw 0%nat 2%nat offsets_a 1 offsets_a 2 s1 s3
                    eq_refl eq_refl eq_refl eq_refl) eq_refl).
  - refine (proj1 (proj2 (Hlaw 0%nat 1%nat offsets_a 1 offsets_b 1 s1 s2
                            eq_refl eq_refl eq_refl eq_refl) _ (or_introl registry_ok_session))).
    discriminate.
Defined.

(** C1 as the spec words it fails after a fakification: [wrapper_a] is
    flattened, the placeholders are unflattened with its context, which
    registers the symbol of [offsets_a] for [offsets_fake] as well; the two
    offsets are different objects and resolve to the same symbol. *)
Lemma placeholder_resolves_to_shared_symbol :
  __tensor_flatten__ wrapper_a
    = Ok (["_values"; "_offsets"], mkFlattenCtx false (SingletonInt 1 1)) ∧
  has_free_symbols offsets_fake = true ∧
  tid offsets_a ≠ tid offsets_fake ∧
  (resolve_each [(offsets_a, 1); (offsets_fake, 1)] world_fake).2
    = Ok [SingletonInt 1 1; SingletonInt 1 1].
Proof. split_and!; [reflexivity | reflexivity | discriminate | vm_compute; reflexivity]. Qed.

Lemma resolve_registered_is_frame_witness :
  _tensor_symint_registry (get_tensor_symint offsets_a 1 session_world).1 !! tid offsets_a
    = Some (SingletonInt 1 1) ∧
  get_tensor_symint offsets_a 7 (get_tensor_symint offsets_a 1 session_world).1
    = ((get_tensor_symint offsets_a 1 session_world).1, Ok (SingletonInt 1 1)).
Proof.
  assert (_tensor_symint_registry (get_tensor_symint offsets_a 1 session_world).1
            !! tid offsets_a = Some (SingletonInt 1 1)) as H by (vm_compute; reflexivity).
  split; [exact H |].
  exact (proj1 (resolve_registered_is_frame
                  (get_tensor_symint offsets_a 1 session_world).1 [])
           offsets_a 7 (SingletonInt 1 1) H).
Defined.

(** The same run, evaluated: the second buffer gets the next seed although
    its contents equal the first one's, and the third call finds the first
    symbol again, coefficient and all. *)
Example resolve_each_sample :
  (resolve_each [(offsets_a, 1); (offsets_b, 1); (offsets_a, 2)] session_world).2
    = Ok [SingletonInt 1 1; SingletonInt 2 1; SingletonInt 1 1] ∧
  _tensor_id_counter
    (resolve_each [(offsets_a, 1); (offsets_b, 1); (offsets_a, 2)] session_world).1 = 3.
Proof. split; vm_compute; reflexivity. Qed.

(** ** Construction *)

Lemma in_world_eq {A} (m : M World A) w self w' r :
  m w = (w', r) → in_world m (w, self) = ((w', self), r).
Proof. intros H. unfold in_world. cbn. by rewrite H. Qed.

(** A resolve always returns. *)
Lemma get_tensor_symint_returns tensor coeff w :
  ∃ w' s, get_tensor_symint tensor coeff w = (w', Ok s) ∧
          _tensor_symint_registry w' !! tid tensor = Some s.
Proof.
  destruct (_tensor_symint_registry w !! tid tensor) as [s|] eqn:Hs.
  - exists w, s. by rewrite (get_tensor_symint_hit _ _ _ _ Hs).
  - eexists _, _. rewrite (get_tensor_symint_miss _ _ _ Hs). split; [done |].
    cbn. by rewrite lookup_insert_eq.
Qed.

Lemma init_success v o kwargs w self n st0 strest w' symbol :
  shape o = [n] → stride v = st0 :: strest →
  get_tensor_symint o 1 w = (w', Ok symbol) →
  __init__ (Plain v) (Some o) kwargs (w, self) =
    ((w', mkNestedTensor (nt_dtype self) (nt_device self) (requires_grad self)
            (Some (PyInt (n - 1) :: symbol :: (PyInt <$> drop 1 (shape v))))
            (Some (sym_mul symbol st0 :: (PyInt <$> st0 :: strest)))
            (Some 1) (Some v) (Some o)),
     Ok tt).
Proof.
  intros Ho Hv Hg. unfold __init__, ndim. rewrite Ho, Hv.
  change (Z.of_nat (length [n]) =? 1) with true.
  erewrite bind_Ok by reflexivity.
  erewrite bind_Ok by (apply in_world_eq, Hg).
  reflexivity.
Qed.

Lemma init_bad_offsets v o kwargs s :
  ndim o ≠ 1 → __init__ v (Some o) kwargs s = (s, Raise AssertionError).
Proof.
  intros Hn. unfold __init__. apply Z.eqb_neq in Hn. by rewrite Hn.
Qed.

Lemma init_nested nt o kwargs s :
  __init__ (Jagged nt) o kwargs s = (s, Raise AssertionError).
Proof.
  unfold __init__. destruct o as [o|]; [| done].
  by destruct (ndim o =? 1).
Qed.

Lemma rank_one_shape (o : Tensor) : ndim o = 1 → ∃ n, shape o = [n].
Proof.
  unfold ndim. destruct (shape o) as [|n [|m rest]]; cbn; intros H; try lia.
  by exists n.
Qed.

Lemma call_success v o kwargs w n st0 strest w' symbol :
  shape o = [n] → stride v = st0 :: strest →
  get_tensor_symint o 1 w = (w', Ok symbol) →
  NestedTensor_call (Plain v) (Some o) kwargs w =
    (w', Ok (mkNestedTensor (dtype v) (device v) (default false (kwargs !! "requires_grad"))
               (Some (PyInt (n - 1) :: symbol :: (PyInt <$> drop 1 (shape v))))
               (Some (sym_mul symbol st0 :: (PyInt <$> st0 :: strest)))
               (Some 1) (Some v) (Some o))).
Proof.
  intros Ho Hv Hg. unfold NestedTensor_call.
  by rewrite (init_success _ _ _ _ _ _ _ _ _ _ Ho Hv Hg).
Qed.

Lemma init_rank0 v o kwargs w self n w' symbol :
  shape o = [n] → stride v = [] →
  get_tensor_symint o 1 w = (w', Ok symbol) →
  __init__ (Plain v) (Some o) kwargs (w, self) =
    ((w', set__size (PyInt (n - 1) :: symbol :: (PyInt <$> drop 1 (shape v))) self),
     Raise IndexError).
Proof.
  intros Ho Hv Hg. unfold __init__, ndim. rewrite Ho, Hv.
  change (Z.of_nat (length [n]) =? 1) with true.
  erewrite bind_Ok by reflexivity.
  erewrite bind_Ok by (apply in_world_eq, Hg).
  reflexivity.
Qed.

(** What a successful constructor call tells. *)
Lemma call_inv values offsets kwargs w w' nt :
  NestedTensor_call values offsets kwargs w = (w', Ok nt) →
  ∃ v o n st0 strest symbol,
    values = Plain v ∧ offsets = Some o ∧
    shape o = [n] ∧ stride v = st0 :: strest ∧
    get_tensor_symint o 1 w = (w', Ok symbol) ∧
    _tensor_symint_registry w' !! tid o = Some symbol ∧
    nt = mkNestedTensor (dtype v) (device v) (default false (kwargs !! "requires_grad"))
           (Some (PyInt (n - 1) :: symbol :: (PyInt <$> drop 1 (shape v))))
           (Some (sym_mul symbol st0 :: (PyInt <$> st0 :: strest)))
           (Some 1) (Some v) (Some o).
Proof.
  intros Hcall.
  destruct offsets as [o|]; [| by destruct values].
  destruct values as [v|nt']; [| unfold NestedTensor_call in Hcall; by rewrite init_nested in Hcall].
  destruct (decide (ndim o = 1)) as [Hn|Hn];
    [| unfold NestedTensor_call in Hcall; by rewrite (init_bad_offsets _ _ _ _ Hn) in Hcall].
  destruct (rank_one_shape o Hn) as [n Ho].
  destruct (get_tensor_symint_returns o 1 w) as (w1 & symbol & Hg & Hreg).
  destruct (stride v) as [|st0 strest] eqn:Hv.
  - unfold NestedTensor_call in Hcall.
    by rewrite (init_rank0 _ _ _ _ _ _ _ _ Ho Hv Hg) in Hcall.
  - rewrite (call_success _ _ _ _ _ _ _ _ _ Ho Hv Hg) in Hcall.
    injection Hcall as <- <-. by exists v, o, n, st0, strest, symbol.
Qed.

(** X2.  The constructor touches the globals through one resolve at most,
    so it keeps the registry as [get_tensor_symint] alone fills it, whether
    it returns or raises. *)
Theorem NestedTensor_call_registry_ok values offsets kwargs w :
  registry_ok w → registry_ok (NestedTensor_call values offsets kwargs w).1.
Proof.
  intros Hok.
  destruct offsets as [o|]; [| by destruct values].
  destruct values as [v|nt]; [| unfold NestedTensor_call; by rewrite init_nested].
  destruct (decide (ndim o = 1)) as [Hn|Hn];
    [| unfold NestedTensor_call; by rewrite (init_bad_offsets _ _ _ _ Hn)].
  destruct (rank_one_shape o Hn) as [n Ho].
  destruct (get_tensor_symint_spec o 1 w Hok) as (w1 & symbol & Hg & _ & _ & _ & Hok1).
  destruct (stride v) as [|st0 strest] eqn:Hv.
  - unfold NestedTensor_call. by rewrite (init_rank0 _ _ _ _ _ _ _ _ Ho Hv Hg).
  - by rewrite (call_success _ _ _ _ _ _ _ _ _ Ho Hv Hg).
Qed.

Lemma NestedTensor_call_registry_ok_witness :
  registry_ok session_world ∧ registry_ok world_a.
Proof.
  split; [exact registry_ok_session |].
  exact (NestedTensor_call_registry_ok (Plain values_a) (Some offsets_a) ∅ session_world
           registry_ok_session).
Defined.

(** X1.  The invariants of a wrapper.  Whatever the constructor returns was
    built from dense values (never a wrapper) and rank-1 offsets, which it
    holds as they were passed; its ragged index is 1; the entry of [_size] at
    the ragged index is the symbol registered for the offsets; and [_strides]
    has one entry more than the values buffer has strides. *)
Theorem wrapper_invariants
    (values : AnyTensor) (offsets : option Tensor) (kwargs : gmap string bool)
    (w w' : World) (nt : NestedTensor) :
  NestedTensor_call values offsets kwargs w = (w', Ok nt) →
  ∃ v o size strides symbol,
    values = Plain v ∧ offsets = Some o ∧
    isinstance_NestedTensor values = false ∧
    ndim o = 1 ∧
    _values nt = Some v ∧ _offsets nt = Some o ∧
    _ragged_idx nt = Some 1 ∧
    _size nt = Some size ∧ _strides nt = Some strides ∧
    py_index size 1 = Ok symbol ∧
    _tensor_symint_registry w' !! tid o = Some symbol ∧
    length strides = Datatypes.S (length (stride v)).
Proof.
  intros Hcall.
  destruct (call_inv _ _ _ _ _ _ Hcall)
    as (v & o & n & st0 & strest & symbol & -> & -> & Ho & Hst & _ & Hreg & ->).
  eexists v, o, _, _, symbol. split_and!; try reflexivity.
  - unfold ndim. by rewrite Ho.
  - done.
  - cbn. rewrite Hst. cbn. by rewrite length_fmap.
Qed.

Lemma wrapper_invariants_witness :
  ∃ v o size strides symbol,
    Plain values_a = Plain v ∧ Some offsets_a = Some o ∧
    isinstance_NestedTensor (Plain values_a) = false ∧
    ndim o = 1 ∧
    _values wrapper_a = Some v ∧ _offsets wrapper_a = Some o ∧
    _ragged_idx wrapper_a = Some 1 ∧
    _size wrapper_a = Some size ∧ _strides wrapper_a = Some strides ∧
    py_index size 1 = Ok symbol ∧
    _tensor_symint_registry world_a !! tid o = Some symbol ∧
    length strides = Datatypes.S (length (stride v)).
Proof.
  refine (wrapper_invariants (Plain values_a) (Some offsets_a) ∅ session_world world_a
            wrapper_a _).
  vm_compute. reflexivity.
Defined.

(** C2 (amended).  For a dense values buffer of rank at least one and a
    rank-1 offsets buffer of length [n], the constructor call resolves the
    ragged symbol of the offsets with coefficient 1 and returns a wrapper
    whose [_size] is [(n - 1, symbol, *values.shape[1:])] and whose
    [_strides] is [(symbol * values.stride[0], *values.stride)]: all the
    strides of the values buffer follow the scaled one, the leading stride
    included.  [_values] and [_offsets] are the very objects passed in. *)
Theorem construction_sets_size_and_strides
    (values offsets : Tensor) (kwargs : gmap string bool) (w : World)
    (n st0 : Z) (strest : list Z) :
  shape offsets = [n] →
  stride values = st0 :: strest →
  ∃ symbol w',
    get_tensor_symint offsets 1 w = (w', Ok symbol) ∧
    NestedTensor_call (Plain values) (Some offsets) kwargs w =
      (w', Ok (mkNestedTensor (dtype values) (device values)
                 (default false (kwargs !! "requires_grad"))
                 (Some (PyInt (n - 1) :: symbol :: (PyInt <$> drop 1 (shape values))))
                 (Some (sym_mul symbol st0 :: PyInt st0 :: (PyInt <$> strest)))
                 (Some 1) (Some values) (Some offsets))).
Proof.
  intros Ho Hv.
  destruct (get_tensor_symint_returns offsets 1 w) as (w' & symbol & Hg & _).
  exists symbol, w'. split; [done |].
  by rewrite (call_success _ _ _ _ _ _ _ _ _ Ho Hv Hg).
Qed.

Lemma construction_sets_size_and_strides_witness :
  ∃ symbol w',
    get_tensor_symint offsets_a 1 session_world = (w', Ok symbol) ∧
    NestedTensor_call (Plain values_a) (Some offsets_a) ∅ session_world =
      (w', Ok (mkNestedTensor float32 cpu false
                 (Some [PyInt (3 - 1); symbol; PyInt 4])
                 (Some [sym_mul symbol 4; PyInt 4; PyInt 1])
                 (Some 1) (Some values_a) (Some offsets_a))).
Proof.
  exact (construction_sets_size_and_strides values_a offsets_a ∅ session_world 3 4 [1]
           eq_refl eq_refl).
Defined.

(** C2 as the spec words it fails on [values_a]: the strides the spec gives,
    [(symbol * stride[0], *stride[1:])], are one entry short of the ones the
    constructor stores. *)
Lemma logical_stride_keeps_leading_stride :
  (NestedTensor_call (Plain values_a) (Some offsets_a) ∅ session_world).2 = Ok wrapper_a ∧
  _size wrapper_a = Some [PyInt 2; SingletonInt 1 1; PyInt 4] ∧
  _strides wrapper_a = Some [SingletonInt 1 4; PyInt 4; PyInt 1] ∧
  _strides wrapper_a ≠
    Some (sym_mul (SingletonInt 1 1) 4 :: (PyInt <$> drop 1 (stride values_a))).
Proof. split_and!; [vm_compute; reflexivity | done | done | discriminate]. Qed.

(** C3 (amended).  The constructor fails with [AssertionError] whenever the
    offsets are missing or not rank-1, and with [AssertionError] whenever the
    values are themselves a wrapper; in both cases [__init__] raises with no
    attribute assigned and the globals, the registry included, untouched.
    With rank-1 offsets and dense values of rank at least one it succeeds
    with all five attributes assigned. *)
Theorem construction_preconditions
    (values : AnyTensor) (offsets : option Tensor) (kwargs : gmap string bool) (w : World) :
  let self := __new__ values offsets kwargs in
  attributes_set self = [] ∧
  ((offsets = None ∨ ∃ o, offsets = Some o ∧ ndim o ≠ 1) →
     __init__ values offsets kwargs (w, self) = ((w, self), Raise AssertionError) ∧
     NestedTensor_call values offsets kwargs w = (w, Raise AssertionError)) ∧
  (isinstance_NestedTensor values = true →
     __init__ values offsets kwargs (w, self) = ((w, self), Raise AssertionError) ∧
     NestedTensor_call values offsets kwargs w = (w, Raise AssertionError)) ∧
  (∀ v o, values = Plain v → offsets = Some o → ndim o = 1 → stride v ≠ [] →
     ∃ w' self',
       __init__ values offsets kwargs (w, self) = ((w', self'), Ok tt) ∧
       NestedTensor_call values offsets kwargs w = (w', Ok self') ∧
       attributes_set self' = ["_size"; "_strides"; "_ragged_idx"; "_values"; "_offsets"]).
Proof.
  intros self. split_and!.
  - done.
  - intros [-> | (o & -> & Hn)].
    + unfold NestedTensor_call. by destruct values.
    + unfold NestedTensor_call. fold self. by rewrite (init_bad_offsets _ _ _ _ Hn).
  - intros Hi. destruct values as [v | nt]; [done |].
    unfold NestedTensor_call. fold self. by rewrite init_nested.
  - intros v o -> -> Hn Hs.
    destruct (rank_one_shape o Hn) as [n Ho].
    destruct (stride v) as [|st0 strest] eqn:Hv; [done |].
    destruct (get_tensor_symint_returns o 1 w) as (w' & symbol & Hg & _).
    eexists w', _. unfold NestedTensor_call. fold self.
    rewrite (init_success _ _ _ _ _ _ _ _ _ _ Ho Hv Hg). done.
Qed.

Lemma construction_preconditions_witness :
  NestedTensor_call (Plain values_a) (Some offsets_2d) ∅ session_world
    = (session_world, Raise AssertionError) ∧
  NestedTensor_call (Jagged wrapper_a) (Some offsets_a) ∅ session_world
    = (session_world, Raise AssertionError) ∧
  ∃ w' self', NestedTensor_call (Plain values_a) (Some offsets_a) ∅ session_world
    = (w', Ok self').
Proof.
  split_and!.
  - refine (proj2 (proj1 (proj2 (construction_preconditions
              (Plain values_a) (Some offsets_2d) ∅ session_world)) _)).
    right. exists offsets_2d. split; [reflexivity | vm_compute; discriminate].
  - exact (proj2 (proj1 (proj2 (proj2 (construction_preconditions
              (Jagged wrapper_a) (Some offsets_a) ∅ session_world))) eq_refl)).
  - destruct (proj2 (proj2 (proj2 (construction_preconditions
              (Plain values_a) (Some offsets_a) ∅ session_world)))
              values_a offsets_a eq_refl eq_refl eq_refl) as (w' & self' & _ & H & _).
    + vm_compute. discriminate.
    + by exists w', self'.
Defined.

(** C3 as the spec words it fails: both precondition failures are
    [AssertionError]s, neither a [ShapeError] nor a [TypeError]; and a rank-0
    tensor in the place of values makes [__init__] raise [IndexError] on
    [stride[0]] after [_size] was assigned and the symbol minted. *)
Lemma construction_failures_are_assertions :
  ((NestedTensor_call (Plain values_a) (Some offsets_2d) ∅ session_world).2
     = Raise AssertionError ∧
   exc_name AssertionError ≠ "ShapeError") ∧
  ((NestedTensor_call (Jagged wrapper_a) (Some offsets_a) ∅ session_world).2
     = Raise AssertionError ∧
   exc_name AssertionError ≠ "TypeError") ∧
  ((__init__ (Plain values_0d) (Some offsets_a) ∅
      (session_world, __new__ (Plain values_0d) (Some offsets_a) ∅)).2 = Raise IndexError ∧
   attributes_set
     (__init__ (Plain values_0d) (Some offsets_a) ∅
        (session_world, __new__ (Plain values_0d) (Some offsets_a) ∅)).1.2 = ["_size"] ∧
   _tensor_id_counter
     (__init__ (Plain values_0d) (Some offsets_a) ∅
        (session_world, __new__ (Plain values_0d) (Some offsets_a) ∅)).1.1 = 2).
Proof.
  split_and!; try (vm_compute; reflexivity); vm_compute; discriminate.
Qed.

(** ** The construction helper *)

Lemma one_distinct_all_equal {A} `{EqDecision A} (l : list A) x y :
  length (remove_dups l) = 1%nat → x ∈ l → y ∈ l → x = y.
Proof.
  intros Hlen Hx Hy.
  apply elem_of_remove_dups in Hx, Hy.
  destruct (remove_dups l) as [|z [|z' rest]]; cbn in Hlen; try lia.
  apply list_elem_of_singleton in Hx, Hy. congruence.
Qed.

Lemma all_equal_one_distinct {A} `{EqDecision A} (l : list A) x :
  l ≠ [] → (∀ y, y ∈ l → y = x) → remove_dups l = [x].
Proof.
  induction l as [|a l IH]; [done |]. intros _ Hall.
  assert (a = x) as -> by (apply Hall; left).
  cbn. case_decide as Hin.
  - apply IH; [by intros -> ; apply elem_of_nil in Hin |].
    intros y Hy. apply Hall. by right.
  - destruct l as [|b l']; [done |].
    exfalso. apply Hin. rewrite (Hall b) by (right; left). left.
Qed.

Lemma jagged_dtype_check tensors offsets dtype_arg device_arg w :
  length (remove_dups (dtype <$> tensors)) ≠ 1%nat →
  jagged_from_list tensors offsets dtype_arg device_arg w = (w, Raise (RuntimeError msg_dtype)).
Proof.
  intros H. unfold jagged_from_list. by rewrite bool_decide_eq_false_2.
Qed.

Lemma jagged_device_check tensors offsets dtype_arg device_arg w :
  length (remove_dups (dtype <$> tensors)) = 1%nat →
  length (remove_dups (device <$> tensors)) ≠ 1%nat →
  jagged_from_list tensors offsets dtype_arg device_arg w = (w, Raise (RuntimeError msg_device)).
Proof.
  intros H1 H2. unfold jagged_from_list.
  rewrite bool_decide_eq_true_2 by done. by rewrite bool_decide_eq_false_2.
Qed.

Lemma jagged_shape_check tensors offsets dtype_arg device_arg w :
  length (remove_dups (dtype <$> tensors)) = 1%nat →
  length (remove_dups (device <$> tensors)) = 1%nat →
  forallb (λ s, bool_decide (Some s = (drop 1 <$> (shape <$> tensors)) !! 0%nat))
          (drop 1 <$> (shape <$> tensors)) = false →
  jagged_from_list tensors offsets dtype_arg device_arg w = (w, Raise (RuntimeError msg_jagged)).
Proof.
  intros H1 H2 H3. unfold jagged_from_list.
  rewrite !bool_decide_eq_true_2 by done. cbn. by rewrite H3.
Qed.

Lemma first_ragged_all_equal (l : list (list Z)) x y :
  forallb (λ s, bool_decide (Some s = l !! 0%nat)) l = true → x ∈ l → y ∈ l → x = y.
Proof.
  intros H Hx Hy. rewrite forallb_forall in H.
  apply list_elem_of_In in Hx, Hy.
  apply H in Hx, Hy. apply bool_decide_eq_true in Hx, Hy. congruence.
Qed.

Lemma uniform_one_distinct {A} `{EqDecision A} (f : Tensor → A) (tensors : list Tensor) :
  tensors ≠ [] →
  (∀ t1 t2, t1 ∈ tensors → t2 ∈ tensors → f t1 = f t2) →
  length (remove_dups (f <$> tensors)) = 1%nat.
Proof.
  intros Hne Hall. destruct tensors as [|t0 rest]; [done |].
  rewrite (all_equal_one_distinct _ (f t0)); [done | done |].
  intros y (t & -> & Ht)%list_elem_of_fmap_1. apply Hall; [done | by left].
Qed.

(** C4 (amended).  [jagged_from_list] fails with [RuntimeError] when the
    list is empty or the elements' dtypes differ, when their devices differ,
    and when the shape of some element beyond its leading axis differs from
    another's; the globals are left as they were.  The three checks run in
    this order and the first one failing gives the message: the dtype
    message for an empty list or differing dtypes; the device message for
    differing devices when the dtypes agree; the jagged-layout message for
    differing trailing shapes when dtypes and devices agree. *)
Theorem jagged_from_list_rejections
    (tensors : list Tensor) (offsets : option Tensor)
    (dtype_arg : option DType) (device_arg : option Device) (w : World) :
  ((tensors = [] ∨ ∃ t1 t2, t1 ∈ tensors ∧ t2 ∈ tensors ∧ dtype t1 ≠ dtype t2) →
     jagged_from_list tensors offsets dtype_arg device_arg w
       = (w, Raise (RuntimeError msg_dtype))) ∧
  (tensors ≠ [] →
   (∀ t1 t2, t1 ∈ tensors → t2 ∈ tensors → dtype t1 = dtype t2) →
   (∃ t1 t2, t1 ∈ tensors ∧ t2 ∈ tensors ∧ device t1 ≠ device t2) →
     jagged_from_list tensors offsets dtype_arg device_arg w
       = (w, Raise (RuntimeError msg_device))) ∧
  (tensors ≠ [] →
   (∀ t1 t2, t1 ∈ tensors → t2 ∈ tensors → dtype t1 = dtype t2) →
   (∀ t1 t2, t1 ∈ tensors → t2 ∈ tensors → device t1 = device t2) →
   (∃ t1 t2, t1 ∈ tensors ∧ t2 ∈ tensors ∧ drop 1 (shape t1) ≠ drop 1 (shape t2)) →
     jagged_from_list tensors offsets dtype_arg device_arg w
       = (w, Raise (RuntimeError msg_jagged))) ∧
  ((∃ t1 t2, t1 ∈ tensors ∧ t2 ∈ tensors ∧ device t1 ≠ device t2) →
     jagged_from_list tensors offsets dtype_arg device_arg w
       = (w, Raise (RuntimeError msg_dtype)) ∨
     jagged_from_list tensors offsets dtype_arg device_arg w
       = (w, Raise (RuntimeError msg_device))) ∧
  ((∃ t1 t2, t1 ∈ tensors ∧ t2 ∈ tensors ∧ drop 1 (shape t1) ≠ drop 1 (shape t2)) →
     ∃ msg, msg ∈ [msg_dtype; msg_device; msg_jagged] ∧
       jagged_from_list tensors offsets dtype_arg device_arg w
         = (w, Raise (RuntimeError msg))).
Proof.
  assert (∀ t1 t2, t1 ∈ tensors → t2 ∈ tensors → device t1 ≠ device t2 →
            length (remove_dups (device <$> tensors)) ≠ 1%nat) as Hdev.
  { intros t1 t2 H1 H2 Hne Hlen. apply Hne.
    eapply one_distinct_all_equal; [exact Hlen | |]; by apply list_elem_of_fmap_2. }
  assert (∀ t1 t2, t1 ∈ tensors → t2 ∈ tensors → drop 1 (shape t1) ≠ drop 1 (shape t2) →
            forallb (λ s, bool_decide (Some s = (drop 1 <$> (shape <$> tensors)) !! 0%nat))
                    (drop 1 <$> (shape <$> tensors)) = false) as Hshape.
  { intros t1 t2 H1 H2 Hne. apply not_true_is_false. intros Hall. apply Hne.
    eapply first_ragged_all_equal; [exact Hall | |];
      by apply list_elem_of_fmap_2, list_elem_of_fmap_2. }
  split_and!.
  - intros [-> | (t1 & t2 & H1 & H2 & Hne)]; [done |].
    apply jagged_dtype_check. intros Hlen. apply Hne.
    eapply one_distinct_all_equal; [exact Hlen | |]; by apply list_elem_of_fmap_2.
  - intros Hne Hdt (t1 & t2 & H1 & H2 & Hd).
    apply jagged_device_check; [by apply uniform_one_distinct | exact (Hdev _ _ H1 H2 Hd)].
  - intros Hne Hdt Hdv (t1 & t2 & H1 & H2 & Hs).
    apply jagged_shape_check;
      [by apply uniform_one_distinct | by apply uniform_one_distinct |
       exact (Hshape _ _ H1 H2 Hs)].
  - intros (t1 & t2 & H1 & H2 & Hne).
    destruct (decide (length (remove_dups (dtype <$> tensors)) = 1%nat)) as [Hd|Hd].
    + right. apply jagged_device_check; [done | exact (Hdev _ _ H1 H2 Hne)].
    + left. by apply jagged_dtype_check.
  - intros (t1 & t2 & H1 & H2 & Hne).
    destruct (decide (length (remove_dups (dtype <$> tensors)) = 1%nat)) as [Hd|Hd];
      [| exists msg_dtype; split; [by left | by apply jagged_dtype_check]].
    destruct (decide (length (remove_dups (device <$> tensors)) = 1%nat)) as [Hv|Hv];
      [| exists msg_device; split; [by right; left | by apply jagged_device_check]].
    exists msg_jagged. split; [by do 2 right; left |].
    apply jagged_shape_check; [done | done | exact (Hshape _ _ H1 H2 Hne)].
Qed.

Lemma jagged_from_list_rejections_witness :
  jagged_from_list [t_3x4; t_f64] None None None session_world
    = (session_world, Raise (RuntimeError msg_dtype)) ∧
  jagged_from_list [t_3x4; t_cuda] None None None session_world
    = (session_world, Raise (RuntimeError msg_device)) ∧
  jagged_from_list [t_3x4; t_5x5] None None None session_world
    = (session_world, Raise (RuntimeError msg_jagged)).
Proof.
  assert (∀ (A : Type) (f : Tensor → A) (a b : Tensor), f a = f b →
            ∀ t1 t2, t1 ∈ [a; b] → t2 ∈ [a; b] → f t1 = f t2) as Hsame.
  { intros A f a b Hab t1 t2 H1 H2.
    apply elem_of_cons in H1 as [-> | ->%list_elem_of_singleton];
      apply elem_of_cons in H2 as [-> | ->%list_elem_of_singleton]; congruence. }
  split_and!.
  - apply (proj1 (jagged_from_list_rejections [t_3x4; t_f64] None None None session_world)).
    right. exists t_3x4, t_f64. split_and!; [by left | by right; left | discriminate].
  - apply (proj1 (proj2 (jagged_from_list_rejections [t_3x4; t_cuda] None None None
                           session_world))).
    + discriminate.
    + by apply Hsame.
    + exists t_3x4, t_cuda. split_and!; [by left | by right; left | discriminate].
  - apply (proj1 (proj2 (proj2 (jagged_from_list_rejections [t_3x4; t_5x5] None None None
                                  session_world)))).
    + discriminate.
    + by apply Hsame.
    + by apply Hsame.
    + exists t_3x4, t_5x5. split_and!; [by left | by right; left | discriminate].
Defined.

(** C4 as the spec words it fails: the empty list, the mixed dtypes and the
    differing trailing shapes all end in a [RuntimeError], none in a
    [ValueError] or a [ShapeError]. *)
Lemma jagged_from_list_raises_runtime_error :
  ((jagged_from_list [] None None None session_world).2 = Raise (RuntimeError msg_dtype) ∧
   (jagged_from_list [t_3x4; t_f64] None None None session_world).2
     = Raise (RuntimeError msg_dtype) ∧
   exc_name (RuntimeError msg_dtype) ≠ "ValueError") ∧
  ((jagged_from_list [t_3x4; t_5x5] None None None session_world).2
     = Raise (RuntimeError msg_jagged) ∧
   exc_name (RuntimeError msg_jagged) ≠ "ShapeError").
Proof.
  split_and!; try (vm_compute; reflexivity); vm_compute; discriminate.
Qed.

Lemma new_tensor_eq sh dt dev el w :
  new_tensor sh dt dev el w =
    (set_next_tid (Pos.succ (next_tid w)) w,
     Ok (mkTensor (next_tid w) sh (contiguous_stride sh) dt dev el false)).
Proof. reflexivity. Qed.

Lemma wrap64_small z : - 2 ^ 63 ≤ z < 2 ^ 63 → wrap64 z = z.
Proof. intros H. unfold wrap64. rewrite Z.mod_small by lia. lia. Qed.

Lemma sum_nonneg lens : Forall (λ len, 0 ≤ len) lens → 0 ≤ foldr Z.add 0 lens.
Proof. induction 1; cbn; lia. Qed.

Lemma cumsum_from_running_sums lens : ∀ acc,
  0 ≤ acc → Forall (λ len, 0 ≤ len) lens → acc + foldr Z.add 0 lens < 2 ^ 63 →
  cumsum_from acc lens = running_sums acc lens.
Proof.
  induction lens as [|len rest IH]; intros acc Hacc Hall Hsum; [done |].
  inversion Hall as [|? ? Hlen Hrest]; subst. cbn in *.
  pose proof (sum_nonneg _ Hrest).
  rewrite wrap64_small by lia. f_equal. apply IH; [lia | done | lia].
Qed.

Lemma lens_in_int64 lens :
  Forall (λ len, 0 ≤ len) lens → foldr Z.add 0 lens < 2 ^ 63 →
  forallb in_int64 lens = true.
Proof.
  induction 1 as [|len rest Hlen Hrest IH]; cbn; intros Hsum; [done |].
  pose proof (sum_nonneg _ Hrest).
  rewrite IH by lia. unfold in_int64.
  rewrite andb_true_r. apply andb_true_intro. split; [apply Z.leb_le | apply Z.ltb_lt]; lia.
Qed.

Lemma mapM_outcome_Ok {A B} (f : A → outcome B) l k :
  Forall2 (λ x y, f x = Ok y) l k → mapM f l = Ok k.
Proof.
  induction 1 as [|x y l k Hxy _ IH]; [done |].
  cbn. rewrite Hxy. cbn. rewrite IH. done.
Qed.

Lemma torch_cat_eq t0 rest lens w :
  Forall2 (λ t len, head (shape t) = Some len) (t0 :: rest) lens →
  torch_cat (t0 :: rest) w =
    new_tensor (foldr Z.add 0 lens :: drop 1 (shape t0)) (dtype t0) (device t0)
               (concat (elems <$> t0 :: rest)) w.
Proof.
  intros H. unfold torch_cat. apply mapM_Some_2 in H. by rewrite H.
Qed.

Lemma tensor_to_spec t to_device to_dtype w :
  ∃ w' t', tensor_to t to_device to_dtype w = (w', Ok t') ∧
    shape t' = shape t ∧ stride t' = stride t ∧
    device t' = default (device t) to_device ∧
    dtype t' = default (dtype t) to_dtype ∧
    _tensor_id_counter w' = _tensor_id_counter w ∧
    _tensor_symint_registry w' = _tensor_symint_registry w.
Proof.
  unfold tensor_to. case_bool_decide as Hd.
  - exists w, t. destruct Hd as [-> ->]. done.
  - eexists _, _. split; [reflexivity |]. done.
Qed.

Lemma list_rows_checks tensors lens dt dev trailing :
  tensors ≠ [] →
  Forall2 (list_row dt dev trailing) tensors lens →
  remove_dups (dtype <$> tensors) = [dt] ∧
  remove_dups (device <$> tensors) = [dev] ∧
  forallb (λ s, bool_decide (Some s = (drop 1 <$> (shape <$> tensors)) !! 0%nat))
          (drop 1 <$> (shape <$> tensors)) = true ∧
  Forall2 (λ t len, head (shape t) = Some len) tensors lens ∧
  Forall2 (λ s len, py_index s 0 = Ok len) (shape <$> tensors) lens ∧
  Forall (λ len, 0 ≤ len) lens.
Proof.
  intros Hne Hall.
  assert (∀ t, t ∈ tensors → dtype t = dt ∧ device t = dev ∧ drop 1 (shape t) = trailing) as Hin.
  { intros t Ht. apply list_elem_of_lookup in Ht as [i Hi].
    destruct (Forall2_lookup_l _ _ _ _ _ Hall Hi) as (len & _ & Hd & Hv & Hs & _).
    by rewrite Hs. }
  split_and!.
  - apply all_equal_one_distinct; [by destruct tensors |].
    intros y (t & -> & Ht)%list_elem_of_fmap_1. by apply Hin.
  - apply all_equal_one_distinct; [by destruct tensors |].
    intros y (t & -> & Ht)%list_elem_of_fmap_1. by apply Hin.
  - destruct tensors as [|t0 rest]; [done |].
    assert (drop 1 (shape t0) = trailing) as H0 by (apply Hin; left).
    apply forallb_forall. intros s Hs. apply list_elem_of_In in Hs.
    apply list_elem_of_fmap_1 in Hs as (s' & -> & Hs).
    apply list_elem_of_fmap_1 in Hs as (t & -> & Ht).
    apply bool_decide_eq_true. cbn. rewrite H0. f_equal. by apply Hin.
  - eapply Forall2_impl; [exact Hall |]. intros t len (_ & _ & Hs & _). by rewrite Hs.
  - apply Forall2_fmap_l. eapply Forall2_impl; [exact Hall |].
    intros t len (_ & _ & Hs & _). cbn. by rewrite Hs.
  - clear Hne Hin. induction Hall as [|t len ts ls (_ & _ & _ & Hlen) _ IH]; by constructor.
Qed.

(** C5.  For a non-empty list whose elements share dtype, device and
    trailing shape, with leading extents [lens] (non-negative, their sum a
    valid 64-bit dimension), and no offsets supplied: [jagged_from_list]
    returns a wrapper together with an offsets tensor whose elements are
    [0, len_0, len_0 + len_1, ...], of dtype int64, on the device of the
    values buffer (after the requested conversion); that tensor is the
    wrapper's [_offsets], the same object. *)
Theorem jagged_from_list_computes_offsets
    (tensors : list Tensor) (lens : list Z) (dt : DType) (dev : Device) (trailing : list Z)
    (dtype_arg : option DType) (device_arg : option Device) (w : World) :
  tensors ≠ [] →
  Forall2 (list_row dt dev trailing) tensors lens →
  foldr Z.add 0 lens < 2 ^ 63 →
  ∃ w' nt values offs,
    jagged_from_list tensors None dtype_arg device_arg w = (w', Ok (nt, offs)) ∧
    elems offs = 0 :: running_sums 0 lens ∧
    shape offs = [Z.of_nat (length tensors) + 1] ∧
    dtype offs = int64 ∧
    _values nt = Some values ∧
    shape values = foldr Z.add 0 lens :: trailing ∧
    device values = default dev device_arg ∧
    device offs = device values ∧
    _offsets nt = Some offs.
Proof.
  intros Hne Hall Hsum.
  destruct (list_rows_checks _ _ _ _ _ Hne Hall) as (Hd & Hv & Hf & Hhead & Hidx & Hpos).
  pose proof (Forall2_length _ _ _ Hall) as Hlen.
  destruct tensors as [|t0 rest]; [done |].
  destruct lens as [|len0 lens']; [done |].
  assert (shape t0 = len0 :: trailing ∧ device t0 = dev) as [Hs0 Hdev0].
  { inversion Hall as [|? ? ? ? (_ & ? & ? & _)]; by subst. }
  unfold jagged_from_list. rewrite Hd, Hv. cbn [length negb bool_decide decide_rel].
  rewrite !bool_decide_eq_true_2 by done. cbn [negb]. rewrite Hf. cbn [negb].
  (* values = torch.cat(tensors, dim=0) *)
  erewrite bind_Ok by (rewrite (torch_cat_eq _ _ _ _ Hhead); apply new_tensor_eq).
  (* values = values.to( **to_kwargs) *)
  match goal with |- context [tensor_to ?t _ _] => set (v0 := t) end.
  match goal with |- context [set_next_tid ?p w] => set (w1 := set_next_tid p w) end.
  destruct (tensor_to_spec v0 device_arg dtype_arg w1)
    as (w2 & v & Hto & Hshape & Hstride & Hdevice & _).
  erewrite bind_Ok by exact Hto.
  (* offsets *)
  erewrite bind_Ok.
  2:{ erewrite bind_Ok by apply new_tensor_eq.
      erewrite bind_Ok by (unfold lift_outcome; rewrite (mapM_outcome_Ok _ _ _ Hidx); reflexivity).
      erewrite bind_Ok.
      2:{ unfold torch_tensor. rewrite (lens_in_int64 _ Hpos Hsum). apply new_tensor_eq. }
      erewrite bind_Ok by apply new_tensor_eq.
      cbn [shape dtype device elems].
      unfold torch_cat. cbn [mapM shape head mbind option_bind mret option_ret].
      apply new_tensor_eq. }
  cbn [shape dtype device elems foldr drop fmap list_fmap concat app replicate Z.to_nat Pos.to_nat Pos.iter_op Nat.add].
  lazymatch goal with |- context [nested_view_from_values_offsets v ?o] => set (o1 := o) end.
  lazymatch goal with |- context [(nested_view_from_values_offsets v o1 ≫= _) ?w] => set (w3 := w) end.
  assert (∃ st0 strest, stride v = st0 :: strest) as (st0 & strest & Hst).
  { rewrite Hstride. subst v0. cbn. eauto. }
  destruct (get_tensor_symint_returns o1 1 w3) as (w4 & symbol & Hg & _).
  erewrite bind_Ok.
  2:{ unfold nested_view_from_values_offsets.
      eapply call_success; [reflexivity | exact Hst | exact Hg]. }
  eexists _, _, v, o1. split; [reflexivity |].
  split_and!; try reflexivity.
  - subst o1. cbn. rewrite app_nil_r. f_equal.
    apply (cumsum_from_running_sums (len0 :: lens') 0); [lia | done | lia].
  - subst o1. cbn. f_equal. cbn in Hlen. lia.
  - rewrite Hshape. subst v0. cbn. by rewrite Hs0.
  - rewrite Hdevice. subst v0. cbn. by rewrite Hdev0.
Qed.

Lemma jagged_from_list_computes_offsets_witness :
  ∃ w' nt values offs,
    jagged_from_list [t_3x4; t_5x4] None None None session_world = (w', Ok (nt, offs)) ∧
    elems offs = [0; 3; 8] ∧
    shape offs = [3] ∧
    dtype offs = int64 ∧
    _values nt = Some values ∧
    shape values = [8; 4] ∧
    device values = cpu ∧
    device offs = device values ∧
    _offsets nt = Some offs.
Proof.
  refine (jagged_from_list_computes_offsets [t_3x4; t_5x4] [3; 5] float32 cpu [4]
            None None session_world _ _ _).
  - discriminate.
  - repeat constructor; lia.
  - reflexivity.
Defined.

(** The shape derivation of the spec, evaluated: logical shape
    [(2, symbol, 4)], values of shape [(8, 4)], offsets [[0, 3, 8]]. *)
Example jagged_from_list_sample :
  ∃ w' nt offs v,
    jagged_from_list [t_3x4; t_5x4] None None None session_world = (w', Ok (nt, offs)) ∧
    _size nt = Some [PyInt 2; SingletonInt 1 1; PyInt 4] ∧
    _values nt = Some v ∧ shape v = [8; 4] ∧
    elems offs = [0; 3; 8].
Proof. eexists _, _, _, _. split_and!; vm_compute; reflexivity. Qed.

(** ** Dispatch *)

Section DispatchProperties.

Variables Args Kwargs Result : Type.
Variable empty_kwargs : Kwargs.
Variable lookup_jagged :
  Func -> Args -> Kwargs -> option (Args -> Kwargs -> M World Result).
Variable jagged_torch_function : Func -> Args -> Kwargs -> M World Result.
Variable call_func : Func -> Args -> Kwargs -> M World Result.

(** C6.  Kernel-level dispatch of an operator for which the rule table has
    no rule raises [NotImplementedError(func)], carrying that operator, with
    the state untouched: nothing is run in its place.  When the table has a
    rule, the hook's result is the rule's result on the same arguments. *)
Theorem kernel_dispatch_without_rule_raises
    (func : Func) (args : Args) (kwargs : option Kwargs) (w : World) :
  (lookup_jagged func args (default empty_kwargs kwargs) = None →
     __torch_dispatch__ Args Kwargs Result empty_kwargs lookup_jagged func args kwargs w
       = (w, Raise (NotImplementedError func))) ∧
  (∀ fn, lookup_jagged func args (default empty_kwargs kwargs) = Some fn →
     __torch_dispatch__ Args Kwargs Result empty_kwargs lookup_jagged func args kwargs w
       = fn args (default empty_kwargs kwargs) w).
Proof.
  unfold __torch_dispatch__. split.
  - by intros ->.
  - by intros fn ->.
Qed.

(** C7.  Function-level dispatch: when the function-level rule returns, the
    hook returns its result; when it raises [NotImplementedError], the hook
    does not raise it but runs the operator itself on the same arguments
    with the subclass switch off, from the state the rule left, and puts the
    switch back afterwards; any other exception of the rule goes through. *)
Theorem function_dispatch_falls_through
    (func : Func) (args : Args) (kwargs : option Kwargs) (w : World) :
  (∀ w1 r,
     jagged_torch_function func args (default empty_kwargs kwargs) w = (w1, Ok r) →
     __torch_function__ Args Kwargs Result empty_kwargs jagged_torch_function call_func
       func args kwargs w = (w1, Ok r)) ∧
  (∀ w1 f,
     jagged_torch_function func args (default empty_kwargs kwargs) w
       = (w1, Raise (NotImplementedError f)) →
     __torch_function__ Args Kwargs Result empty_kwargs jagged_torch_function call_func
       func args kwargs w
       = (set_torch_function_subclass_enabled (torch_function_subclass_enabled w1)
            (call_func func args (default empty_kwargs kwargs)
               (set_torch_function_subclass_enabled false w1)).1,
          (call_func func args (default empty_kwargs kwargs)
             (set_torch_function_subclass_enabled false w1)).2)) ∧
  (∀ w1 e,
     jagged_torch_function func args (default empty_kwargs kwargs) w = (w1, Raise e) →
     exc_name e ≠ "NotImplementedError" →
     __torch_function__ Args Kwargs Result empty_kwargs jagged_torch_function call_func
       func args kwargs w = (w1, Raise e)).
Proof.
  unfold __torch_function__. split_and!.
  - by intros w1 r ->.
  - intros w1 f ->. unfold DisableTorchFunctionSubclass.
    by destruct (call_func _ _ _ _).
  - intros w1 e -> He. by destruct e.
Qed.

End DispatchProperties.

Lemma kernel_dispatch_without_rule_raises_witness :
  __torch_dispatch__ (list AnyTensor) (gmap string bool) (list AnyTensor) ∅
    sample_lookup_jagged "aten.matmul.default" [Jagged wrapper_a] None session_world
    = (session_world, Raise (NotImplementedError "aten.matmul.default")) ∧
  __torch_dispatch__ (list AnyTensor) (gmap string bool) (list AnyTensor) ∅
    sample_lookup_jagged "aten.detach.default" [Jagged wrapper_a] None session_world
    = (session_world, Ok [Jagged wrapper_a]).
Proof.
  split.
  - exact (proj1 (kernel_dispatch_without_rule_raises (list AnyTensor) (gmap string bool)
             (list AnyTensor) ∅ sample_lookup_jagged "aten.matmul.default"
             [Jagged wrapper_a] None session_world) eq_refl).
  - exact (proj2 (kernel_dispatch_without_rule_raises (list AnyTensor) (gmap string bool)
             (list AnyTensor) ∅ sample_lookup_jagged "aten.detach.default"
             [Jagged wrapper_a] None session_world) _ eq_refl).
Defined.

Lemma function_dispatch_falls_through_witness :
  __torch_function__ (list AnyTensor) (gmap string bool) (list AnyTensor) ∅
    sample_jagged_torch_function sample_call_func
    "torch.flatten" [Jagged wrapper_a] None session_world
    = (session_world, Ok [Jagged wrapper_a]) ∧
  __torch_function__ (list AnyTensor) (gmap string bool) (list AnyTensor) ∅
    sample_jagged_torch_function sample_call_func
    "Tensor.is_contiguous" [Jagged wrapper_a] None session_world
    = (session_world, Ok [Jagged wrapper_a]).
Proof.
  split.
  - exact (proj1 (function_dispatch_falls_through (list AnyTensor) (gmap string bool)
             (list AnyTensor) ∅ sample_jagged_torch_function sample_call_func
             "torch.flatten" [Jagged wrapper_a] None session_world) _ _ eq_refl).
  - exact (proj1 (proj2 (function_dispatch_falls_through (list AnyTensor) (gmap string bool)
             (list AnyTensor) ∅ sample_jagged_torch_function sample_call_func
             "Tensor.is_contiguous" [Jagged wrapper_a] None session_world)) _ _ eq_refl).
Defined.

(** ** The differentiable boundary *)

(** C8.  For a wrapper [wr] built from [vals] and [offs]: the forward of the
    differentiable extraction saves [offs] in its context and returns [vals],
    the very object the wrapper holds; the backward, given a dense gradient
    [g] of rank at least one, returns the wrapper the constructor builds from
    [g] and the saved offsets, so the gradient is a wrapper whose [_offsets]
    is the [_offsets] of [wr]. *)
Theorem differentiable_values_round_trip
    (vals offs g : Tensor) (kwargs : gmap string bool) (w0 w1 w : World) (wr : NestedTensor) :
  NestedTensor_call (Plain vals) (Some offs) kwargs w0 = (w1, Ok wr) →
  stride g ≠ [] →
  ∃ ctx,
    DifferentiableValues.forward (DifferentiableValues.mkFunctionCtx []) wr = Ok (ctx, vals) ∧
    values wr = Ok (ctx, vals) ∧
    DifferentiableValues.saved_tensors ctx = [offs] ∧
    ∃ w' grad,
      DifferentiableValues.backward ctx (Plain g) w = (w', Ok grad) ∧
      NestedTensor_call (Plain g) (Some offs) ∅ w = (w', Ok grad) ∧
      _values grad = Some g ∧
      _offsets grad = Some offs ∧
      _offsets grad = _offsets wr.
Proof.
  intros Hcall Hg.
  destruct (call_inv _ _ _ _ _ _ Hcall) as (v & o & n & st0 & strest & symbol & Hv & Ho & Hso & Hst & _ & _ & ->).
  injection Hv as <-. injection Ho as <-.
  exists (DifferentiableValues.mkFunctionCtx [offs]). split_and!; try reflexivity.
  destruct (stride g) as [|g0 grest] eqn:Hsg; [done |].
  destruct (get_tensor_symint_returns offs 1 w) as (w' & sym & Hsym & _).
  eexists w', _. cbn [DifferentiableValues.backward DifferentiableValues.saved_tensors].
  rewrite (call_success _ _ _ _ _ _ _ _ _ Hso Hsg Hsym). done.
Qed.

Lemma differentiable_values_round_trip_witness :
  ∃ ctx,
    DifferentiableValues.forward (DifferentiableValues.mkFunctionCtx []) wrapper_a
      = Ok (ctx, values_a) ∧
    values wrapper_a = Ok (ctx, values_a) ∧
    DifferentiableValues.saved_tensors ctx = [offsets_a] ∧
    ∃ w' grad,
      DifferentiableValues.backward ctx (Plain grad_a) world_a = (w', Ok grad) ∧
      NestedTensor_call (Plain grad_a) (Some offsets_a) ∅ world_a = (w', Ok grad) ∧
      _values grad = Some grad_a ∧
      _offsets grad = Some offsets_a ∧
      _offsets grad = _offsets wrapper_a.
Proof.
  refine (differentiable_values_round_trip values_a offsets_a grad_a ∅
            session_world world_a world_a wrapper_a _ _).
  - vm_compute. reflexivity.
  - discriminate.
Defined.

(** ** Serialization hooks *)

Lemma set_registry_same w : set_registry (_tensor_symint_registry w) w = w.
Proof. by destruct w. Qed.

Lemma registry_setitem_same t s w :
  _tensor_symint_registry w !! tid t = Some s → registry_setitem t s w = w.
Proof.
  intros H. unfold registry_setitem. rewrite insert_id by done. apply set_registry_same.
Qed.

Lemma unflatten_eq inner meta vals offs w :
  size inner = 2%nat →
  inner !! "_values" = Some vals →
  inner !! "_offsets" = Some offs →
  __tensor_unflatten__ inner meta w =
    NestedTensor_call (Plain vals) (Some offs)
      {["requires_grad" := ctx_requires_grad meta]}
      (if has_free_symbols offs || has_free_symbols vals
       then registry_setitem offs (ctx_ragged_size meta) w else w).
Proof.
  intros Hsize Hv Ho. unfold __tensor_unflatten__.
  rewrite bool_decide_eq_true_2 by done.
  erewrite bind_Ok by reflexivity.
  erewrite bind_Ok by (unfold lift_outcome, py_getitem; rewrite Hv; reflexivity).
  erewrite bind_Ok by (unfold lift_outcome, py_getitem; rewrite Ho; reflexivity).
  destruct (has_free_symbols offs || has_free_symbols vals); by erewrite bind_Ok by reflexivity.
Qed.

(** C9.  For a wrapper [wr] built from [vals] and [offs], in any state where
    [offs] is registered as the construction left it: flattening gives the
    attribute names [_values], [_offsets] and a context with the wrapper's
    [requires_grad] and ragged symbol; unflattening the two buffers with that
    context gives back [wr] (the same buffers, [requires_grad], size and
    strides) and leaves the globals as they were, counter included: no symbol
    is minted.  In general [__tensor_unflatten__] is the constructor call run
    after registering the context's symbol for the offsets when one of the
    two buffers has free symbols, and run on the untouched registry when
    neither has; in the first case the new wrapper's ragged size is the
    context's symbol and the counter does not move. *)
Theorem flatten_unflatten_round_trip
    (vals offs : Tensor) (kwargs : gmap string bool) (w0 w1 w : World) (wr : NestedTensor) :
  NestedTensor_call (Plain vals) (Some offs) kwargs w0 = (w1, Ok wr) →
  _tensor_symint_registry w !! tid offs = _tensor_symint_registry w1 !! tid offs →
  (∃ symbol inner,
     _tensor_symint_registry w !! tid offs = Some symbol ∧
     __tensor_flatten__ wr
       = Ok (["_values"; "_offsets"], mkFlattenCtx (requires_grad wr) symbol) ∧
     inner_tensors_of wr ["_values"; "_offsets"] = Ok inner ∧
     inner !! "_values" = Some vals ∧
     inner !! "_offsets" = Some offs ∧
     __tensor_unflatten__ inner (mkFlattenCtx (requires_grad wr) symbol) w = (w, Ok wr)) ∧
  (∀ inner meta values offsets w2,
     size inner = 2%nat →
     inner !! "_values" = Some values →
     inner !! "_offsets" = Some offsets →
     __tensor_unflatten__ inner meta w2 =
       NestedTensor_call (Plain values) (Some offsets)
         {["requires_grad" := ctx_requires_grad meta]}
         (if has_free_symbols offsets || has_free_symbols values
          then registry_setitem offsets (ctx_ragged_size meta) w2 else w2)) ∧
  (∀ inner meta values offsets w2 n st0 strest,
     size inner = 2%nat →
     inner !! "_values" = Some values →
     inner !! "_offsets" = Some offsets →
     shape offsets = [n] → stride values = st0 :: strest →
     has_free_symbols offsets || has_free_symbols values = true →
     ∃ nt,
       __tensor_unflatten__ inner meta w2
         = (registry_setitem offsets (ctx_ragged_size meta) w2, Ok nt) ∧
       _size nt = Some (PyInt (n - 1) :: ctx_ragged_size meta
                          :: (PyInt <$> drop 1 (shape values))) ∧
       _tensor_id_counter (registry_setitem offsets (ctx_ragged_size meta) w2)
         = _tensor_id_counter w2).
Proof.
  intros Hcall Hreg. split_and!.
  - destruct (call_inv _ _ _ _ _ _ Hcall)
      as (v & o & n & st0 & strest & symbol & Hv & Ho & Hso & Hst & _ & Hsym & ->).
    injection Hv as <-. injection Ho as <-. rewrite Hsym in Hreg.
    exists symbol, (<["_values" := vals]> (<["_offsets" := offs]> ∅)).
    split_and!; try done.
    rewrite (unflatten_eq _ _ vals offs) by done.
    cbn [ctx_ragged_size ctx_requires_grad requires_grad].
    assert ((if has_free_symbols offs || has_free_symbols vals
             then registry_setitem offs symbol w else w) = w) as ->.
    { destruct (_ || _); [by apply registry_setitem_same | done]. }
    rewrite (call_success _ _ _ _ _ _ _ _ _ Hso Hst (get_tensor_symint_hit _ _ _ _ Hreg)).
    rewrite lookup_singleton_eq. cbn [default].
    by destruct (kwargs !! "requires_grad").
  - intros inner meta values offsets w2. apply unflatten_eq.
  - intros inner meta values offsets w2 n st0 strest Hsize Hv Ho Hso Hst Hfree.
    rewrite (unflatten_eq _ _ _ _ _ Hsize Hv Ho), Hfree.
    eexists. split.
    { eapply call_success; [exact Hso | exact Hst |].
      apply get_tensor_symint_hit. cbn. by rewrite lookup_insert_eq. }
    split; reflexivity.
Qed.

Lemma flatten_unflatten_round_trip_witness :
  ∃ symbol inner,
    _tensor_symint_registry world_a !! tid offsets_a = Some symbol ∧
    __tensor_flatten__ wrapper_a
      = Ok (["_values"; "_offsets"], mkFlattenCtx (requires_grad wrapper_a) symbol) ∧
    inner_tensors_of wrapper_a ["_values"; "_offsets"] = Ok inner ∧
    inner !! "_values" = Some values_a ∧
    inner !! "_offsets" = Some offsets_a ∧
    __tensor_unflatten__ inner (mkFlattenCtx (requires_grad wrapper_a) symbol) world_a
      = (world_a, Ok wrapper_a).
Proof.
  refine (proj1 (flatten_unflatten_round_trip values_a offsets_a ∅
                   session_world world_a world_a wrapper_a _ _)).
  - vm_compute. reflexivity.
  - reflexivity.
Defined.

(** Unflattening placeholders with the context of [wrapper_a]: the symbol of
    [offsets_a] is registered for [offsets_fake] too, the new wrapper carries
    it, and the counter stays at 2. *)
Example unflatten_placeholders_sample :
  ∃ w' nt,
    __tensor_unflatten__ (<["_values" := values_fake]> (<["_offsets" := offsets_fake]> ∅))
      (mkFlattenCtx false (SingletonInt 1 1)) world_a = (w', Ok nt) ∧
    _size nt = Some [PyInt 2; SingletonInt 1 1; PyInt 4] ∧
    _tensor_symint_registry w' !! tid offsets_fake = Some (SingletonInt 1 1) ∧
    _tensor_symint_registry w' !! tid offsets_a = Some (SingletonInt 1 1) ∧
    _tensor_id_counter w' = 2.
Proof. eexists _, _. split_and!; vm_compute; reflexivity. Qed.

(** * Further properties *)

(** ** The registry *)

(** X3.  A resolve touches one registry entry at most, the resolved tensor's:
    the entry of every other tensor is as before, the registered tensors are
    the old ones and the resolved one, the counter moves by one at most, and
    the other globals are untouched. *)
Theorem resolve_touches_one_entry (tensor : Tensor) (coeff : Z) (w : World) :
  let w' := (get_tensor_symint tensor coeff w).1 in
  (∀ k, k ≠ tid tensor →
     _tensor_symint_registry w' !! k = _tensor_symint_registry w !! k) ∧
  dom (_tensor_symint_registry w') = {[tid tensor]} ∪ dom (_tensor_symint_registry w) ∧
  _tensor_id_counter w ≤ _tensor_id_counter w' ≤ _tensor_id_counter w + 1 ∧
  torch_function_subclass_enabled w' = torch_function_subclass_enabled w ∧
  next_tid w' = next_tid w.
Proof.
  cbn zeta. destruct (_tensor_symint_registry w !! tid tensor) as [s|] eqn:Hs.
  - rewrite (get_tensor_symint_hit _ _ _ _ Hs). cbn [fst].
    split_and!; [done | | lia | lia | done | done].
    assert (tid tensor ∈ dom (_tensor_symint_registry w)) by (apply elem_of_dom; eauto).
    apply set_eq. intros x. rewrite elem_of_union, elem_of_singleton.
    split; [auto | intros [-> | ?]; done].
  - rewrite (get_tensor_symint_miss _ _ _ Hs). cbn.
    split_and!; [| by rewrite dom_insert_L | lia | lia | done | done].
    intros k Hk. by rewrite lookup_insert_ne.
Qed.

Lemma resolve_touches_one_entry_witness :
  _tensor_symint_registry (get_tensor_symint offsets_b 1 world_a).1 !! tid offsets_a
    = _tensor_symint_registry world_a !! tid offsets_a ∧
  _tensor_symint_registry world_a !! tid offsets_a = Some (SingletonInt 1 1).
Proof.
  split; [| vm_compute; reflexivity].
  refine (proj1 (resolve_touches_one_entry offsets_b 1 world_a) (tid offsets_a) _).
  discriminate.
Defined.

(** ** Wrappers over shared offsets *)

(** X5.  Shape compatibility by shared offsets.  Two wrappers built from the
    same offsets object, the second in any state where that object is still
    registered as the first construction left it, carry the same ragged
    symbol and the same batch size; the second construction mints nothing
    and leaves the globals as they were.  With equal trailing shapes of the
    two values buffers the two logical sizes are equal. *)
Theorem shared_offsets_share_symbol
    (v1 v2 o : Tensor) (kw1 kw2 : gmap string bool) (w0 w1 w2 w3 : World)
    (nt1 nt2 : NestedTensor) :
  NestedTensor_call (Plain v1) (Some o) kw1 w0 = (w1, Ok nt1) →
  _tensor_symint_registry w2 !! tid o = _tensor_symint_registry w1 !! tid o →
  NestedTensor_call (Plain v2) (Some o) kw2 w2 = (w3, Ok nt2) →
  w3 = w2 ∧
  ∃ B symbol,
    _size nt1 = Some (B :: symbol :: (PyInt <$> drop 1 (shape v1))) ∧
    _size nt2 = Some (B :: symbol :: (PyInt <$> drop 1 (shape v2))) ∧
    _tensor_symint_registry w2 !! tid o = Some symbol ∧
    (drop 1 (shape v1) = drop 1 (shape v2) → _size nt1 = _size nt2).
Proof.
  intros H1 Hreg H2.
  destruct (call_inv _ _ _ _ _ _ H1)
    as (v & o' & n & st0 & strest & symbol & [= <-] & [= <-] & Ho & _ & _ & Hsym & ->).
  destruct (call_inv _ _ _ _ _ _ H2)
    as (v' & o' & n' & st0' & strest' & symbol' & [= <-] & [= <-] & Ho' & _ & Hg & _ & ->).
  rewrite Hsym in Hreg. rewrite (get_tensor_symint_hit _ _ _ _ Hreg) in Hg.
  injection Hg as <- <-. rewrite Ho in Ho'. injection Ho' as <-.
  split; [done |]. exists (PyInt (n - 1)), symbol. cbn.
  split_and!; [done | done | done |]. by intros ->.
Qed.

Lemma shared_offsets_share_symbol_witness :
  world_a = world_a ∧
  ∃ B symbol,
    _size wrapper_a = Some (B :: symbol :: (PyInt <$> drop 1 (shape values_a))) ∧
    _size wrapper_c = Some (B :: symbol :: (PyInt <$> drop 1 (shape values_c))) ∧
    _tensor_symint_registry world_a !! tid offsets_a = Some symbol ∧
    (drop 1 (shape values_a) = drop 1 (shape values_c) → _size wrapper_a = _size wrapper_c).
Proof.
  refine (shared_offsets_share_symbol values_a values_c offsets_a ∅ ∅
            session_world world_a world_a world_a wrapper_a wrapper_c _ _ _).
  - vm_compute. reflexivity.
  - reflexivity.
  - vm_compute. reflexivity.
Defined.

(** X6.  Different offsets objects never share a ragged symbol.  In a state
    whose registry was filled by [get_tensor_symint] alone, wrappers built
    one after the other from two different offsets objects carry symbols of
    different tokens, whatever the contents of the two offsets. *)
Theorem distinct_offsets_distinct_symbols
    (v1 v2 o1 o2 : Tensor) (kw1 kw2 : gmap string bool) (w0 w1 w2 : World)
    (nt1 nt2 : NestedTensor) :
  registry_ok w0 →
  tid o1 ≠ tid o2 →
  NestedTensor_call (Plain v1) (Some o1) kw1 w0 = (w1, Ok nt1) →
  NestedTensor_call (Plain v2) (Some o2) kw2 w1 = (w2, Ok nt2) →
  ∃ size1 size2 s1 s2,
    _size nt1 = Some size1 ∧ _size nt2 = Some size2 ∧
    py_index size1 1 = Ok s1 ∧ py_index size2 1 = Ok s2 ∧
    s1 ≠ s2 ∧ symbol_token s1 ≠ symbol_token s2.
Proof.
  intros Hok Hne H1 H2.
  destruct (call_inv _ _ _ _ _ _ H1)
    as (v & o & n & st0 & strest & s1 & [= <-] & [= <-] & _ & _ & Hg1 & Hs1 & ->).
  destruct (call_inv _ _ _ _ _ _ H2)
    as (v' & o' & n' & st0' & strest' & s2 & [= <-] & [= <-] & _ & _ & Hg2 & Hs2 & ->).
  destruct (get_tensor_symint_spec o1 1 w0 Hok) as (w1' & s1' & Hg1' & _ & _ & _ & Hok1).
  rewrite Hg1 in Hg1'. injection Hg1' as <- <-.
  destruct (get_tensor_symint_spec o2 1 w1 Hok1)
    as (w2' & s2' & Hg2' & _ & Hsub & _ & _ & Hinj).
  rewrite Hg2 in Hg2'. injection Hg2' as <- <-.
  pose proof (lookup_weaken _ _ _ _ Hs1 Hsub) as Hs1'.
  eexists _, _, s1, s2. split_and!; try reflexivity.
  - intros ->. apply Hne. by eapply Hinj.
  - intros Ht. apply Hne. by eapply Hinj.
Qed.

Lemma distinct_offsets_distinct_symbols_witness :
  ∃ size1 size2 s1 s2,
    _size wrapper_a = Some size1 ∧ _size wrapper_b = Some size2 ∧
    py_index size1 1 = Ok s1 ∧ py_index size2 1 = Ok s2 ∧
    s1 ≠ s2 ∧ symbol_token s1 ≠ symbol_token s2.
Proof.
  refine (distinct_offsets_distinct_symbols values_a values_a offsets_a offsets_b ∅ ∅
            session_world world_a world_b wrapper_a wrapper_b registry_ok_session _ _ _).
  - discriminate.
  - vm_compute. reflexivity.
  - vm_compute. reflexivity.
Defined.

(** X4.  Seeds follow the order of first resolves.  A run of resolve calls
    on different tensors, none registered yet, returns the symbols minted
    from the counter value at the start, the next one, and so on in the
    order of the calls, each with the coefficient of its call; the counter
    ends advanced by the number of calls. *)
Theorem resolve_mints_in_call_order (calls : list (Tensor * Z)) : ∀ w : World,
  NoDup ((λ call, tid call.1) <$> calls) →
  (∀ call, call ∈ calls → _tensor_symint_registry w !! tid call.1 = None) →
  ∃ w',
    resolve_each calls w = (w', Ok (minted_in_order (_tensor_id_counter w) calls)) ∧
    _tensor_id_counter w' = _tensor_id_counter w + Z.of_nat (length calls).
Proof.
  induction calls as [|[t c] rest IH]; intros w Hnd Hnone.
  - exists w. split; [done |]. cbn. lia.
  - rewrite fmap_cons in Hnd. apply NoDup_cons in Hnd as [Hnotin Hnd].
    assert (_tensor_symint_registry w !! tid t = None) as Ht by (apply (Hnone (t, c)); left).
    pose proof (get_tensor_symint_miss t c w Ht) as Hg.
    set (w1 := set_counter _ _) in Hg.
    destruct (IH w1 Hnd) as (w' & Hrun & Hc).
    { intros call Hin. cbn. rewrite lookup_insert_ne.
      - apply Hnone. by right.
      - intros Heq. apply Hnotin. cbn. rewrite Heq.
        by apply (list_elem_of_fmap_2 (λ call : Tensor * Z, tid call.1)). }
    exists w'. cbn [resolve_each minted_in_order].
    rewrite (bind_Ok _ _ _ _ _ Hg), (bind_Ok _ _ _ _ _ Hrun).
    split; [done |]. rewrite Hc. cbn [length]. cbn. lia.
Qed.

Lemma resolve_mints_in_call_order_witness :
  ∃ w',
    resolve_each [(offsets_a, 1); (offsets_b, 3)] session_world
      = (w', Ok [SingletonInt 1 1; SingletonInt 2 3]) ∧
    _tensor_id_counter w' = _tensor_id_counter session_world + 2.
Proof.
  refine (resolve_mints_in_call_order [(offsets_a, 1); (offsets_b, 3)] session_world _ _).
  - cbn. apply NoDup_cons. split; [| apply NoDup_singleton].
    intros H%list_elem_of_singleton. discriminate H.
  - intros call Hin. apply elem_of_cons in Hin as [-> | Hin];
      [vm_compute; reflexivity |].
    apply list_elem_of_singleton in Hin as ->. vm_compute. reflexivity.
Defined.

(** ** Pickling *)

Lemma instance_dict_constructed size strides idx v o dt dev rg :
  instance_dict (mkNestedTensor dt dev rg (Some size) (Some strides) (Some idx)
                                (Some v) (Some o)) =
    <["_size" := AttrTuple size]> (<["_strides" := AttrTuple strides]>
      (<["_ragged_idx" := AttrInt idx]> (<["_values" := AttrTensor v]>
        (<["_offsets" := AttrTensor o]> ∅)))).
Proof. reflexivity. Qed.

Lemma instance_dict_lookup self :
  instance_dict self !! "_size" = AttrTuple <$> _size self ∧
  instance_dict self !! "_strides" = AttrTuple <$> _strides self ∧
  instance_dict self !! "_ragged_idx" = AttrInt <$> _ragged_idx self ∧
  instance_dict self !! "_values" = AttrTensor <$> _values self ∧
  instance_dict self !! "_offsets" = AttrTensor <$> _offsets self.
Proof.
  destruct self as [dt dev rg [size|] [strides|] [idx|] [v|] [o|]];
    split_and!; reflexivity.
Qed.

(** X7.  What pickling never carries.  [__reduce_ex__] fails with
    [AssertionError] on an object lacking [_size] or [_strides]; when it
    returns, the state it hands over has no [_size] and no [_strides] entry
    and every other instance attribute exactly as the object holds it, the
    arguments are the object's two buffers, and the function to rebuild with
    is the wrapper class. *)
Theorem reduce_ex_drops_symbolic_state (self : NestedTensor) (proto : Z) :
  ((_size self = None ∨ _strides self = None) →
     __reduce_ex__ self proto = Raise AssertionError) ∧
  (∀ r, __reduce_ex__ self proto = Ok r →
     reduce_state r !! "_size" = None ∧
     reduce_state r !! "_strides" = None ∧
     (∀ key, key ≠ "_size" → key ≠ "_strides" →
        reduce_state r !! key = instance_dict self !! key) ∧
     _values self = Some (reduce_args r).1 ∧
     _offsets self = Some (reduce_args r).2 ∧
     reduce_func r = "NestedTensor").
Proof.
  destruct (instance_dict_lookup self) as (Hsize & Hstrides & _).
  unfold __reduce_ex__, _get_obj_state. split.
  - intros [Hn | Hn]; rewrite Hn in *.
    + rewrite (bool_decide_eq_false_2 ("_size" ∈ _)); [done |].
      rewrite elem_of_dom, Hsize. by intros [? ?].
    + rewrite (bool_decide_eq_false_2 ("_strides" ∈ _)); [by rewrite andb_false_r |].
      rewrite elem_of_dom, Hstrides. by intros [? ?].
  - intros r. case_bool_decide as H1; [| done]. case_bool_decide as H2; [| done].
    cbn [negb andb]. unfold py_delitem.
    rewrite (bool_decide_eq_true_2 _ H1). cbn [mbind outcome_bind].
    rewrite bool_decide_eq_true_2
      by (rewrite dom_delete_L; apply elem_of_difference; split; [done |];
          by intros ?%elem_of_singleton).
    cbn [mbind outcome_bind].
    destruct (_values self) as [v|]; [| done]. destruct (_offsets self) as [o|]; [| done].
    cbn. intros [= <-]. cbn. split_and!; try done.
    + by rewrite lookup_delete_ne, lookup_delete_eq.
    + by rewrite lookup_delete_eq.
    + intros key Hk1 Hk2. by rewrite !lookup_delete_ne.
Qed.

Lemma reduce_ex_drops_symbolic_state_witness :
  __reduce_ex__ wrapper_partial 2 = Raise AssertionError ∧
  ∃ r, __reduce_ex__ wrapper_a 2 = Ok r ∧
       reduce_state r !! "_size" = None ∧
       reduce_state r !! "_ragged_idx" = instance_dict wrapper_a !! "_ragged_idx".
Proof.
  split.
  - exact (proj1 (reduce_ex_drops_symbolic_state wrapper_partial 2) (or_intror eq_refl)).
  - eexists. split; [reflexivity |].
    destruct (proj2 (reduce_ex_drops_symbolic_state wrapper_a 2) _ eq_refl)
      as (H1 & _ & H3 & _).
    split; [exact H1 |]. apply H3; discriminate.
Defined.

(** X8.  Pickling round trip through the constructor.  For a wrapper built
    from [vals] and [offs], [__reduce_ex__] returns the arguments
    [(vals, offs)] and a state holding the ragged index and the two buffers
    only; the constructor applied to those arguments, in any state where
    [offs] is still registered as the construction left it, mints nothing
    and returns a wrapper with the same size, strides, ragged index and
    buffers; its [requires_grad] is [False], the keyword not being among the
    arguments. *)
Theorem reduce_ex_args_rebuild
    (vals offs : Tensor) (kwargs : gmap string bool) (w0 w1 w : World)
    (wr : NestedTensor) (proto : Z) :
  NestedTensor_call (Plain vals) (Some offs) kwargs w0 = (w1, Ok wr) →
  _tensor_symint_registry w !! tid offs = _tensor_symint_registry w1 !! tid offs →
  ∃ r wr',
    __reduce_ex__ wr proto = Ok r ∧
    reduce_args r = (vals, offs) ∧
    reduce_state r =
      <["_ragged_idx" := AttrInt 1]>
        (<["_values" := AttrTensor vals]> (<["_offsets" := AttrTensor offs]> ∅)) ∧
    NestedTensor_call (Plain (reduce_args r).1) (Some (reduce_args r).2) ∅ w = (w, Ok wr') ∧
    _size wr' = _size wr ∧ _strides wr' = _strides wr ∧
    _ragged_idx wr' = _ragged_idx wr ∧
    _values wr' = _values wr ∧ _offsets wr' = _offsets wr ∧
    requires_grad wr' = false.
Proof.
  intros Hcall Hreg.
  destruct (call_inv _ _ _ _ _ _ Hcall)
    as (v & o & n & st0 & strest & symbol & [= <-] & [= <-] & Ho & Hst & _ & Hsym & ->).
  rewrite Hsym in Hreg.
  eexists _, _. split; [reflexivity |]. cbn [reduce_args reduce_state fst snd].
  split; [reflexivity |]. split; [reflexivity |].
  split.
  { apply (call_success _ _ _ _ _ _ _ _ _ Ho Hst (get_tensor_symint_hit _ _ _ _ Hreg)). }
  split_and!; reflexivity.
Qed.

Lemma reduce_ex_args_rebuild_witness :
  ∃ r wr',
    __reduce_ex__ wrapper_a 2 = Ok r ∧
    reduce_args r = (values_a, offsets_a) ∧
    reduce_state r =
      <["_ragged_idx" := AttrInt 1]>
        (<["_values" := AttrTensor values_a]> (<["_offsets" := AttrTensor offsets_a]> ∅)) ∧
    NestedTensor_call (Plain (reduce_args r).1) (Some (reduce_args r).2) ∅ world_a
      = (world_a, Ok wr') ∧
    _size wr' = _size wrapper_a ∧ _strides wr' = _strides wrapper_a ∧
    _ragged_idx wr' = _ragged_idx wrapper_a ∧
    _values wr' = _values wrapper_a ∧ _offsets wr' = _offsets wrapper_a ∧
    requires_grad wr' = false.
Proof.
  refine (reduce_ex_args_rebuild values_a offsets_a ∅ session_world world_a world_a
            wrapper_a 2 _ _).
  - vm_compute. reflexivity.
  - reflexivity.
Defined.

(** ** The differentiable boundary, further *)

(** X9.  The gradient is shape-compatible with the wrapper.  For a wrapper
    [wr] and the context its [values()] call recorded, the backward of a
    dense gradient with the shape and strides of the values buffer, run in
    any state where the offsets are still registered as the construction
    left them, mints nothing, leaves the globals as they were and returns a
    wrapper with the size, strides, ragged index and offsets of [wr], holding
    the gradient as its values, with [requires_grad] [False]. *)
Theorem backward_gradient_is_shape_compatible
    (vals offs g : Tensor) (kwargs : gmap string bool) (w0 w1 w : World)
    (wr : NestedTensor) (ctx : DifferentiableValues.FunctionCtx) (out : Tensor) :
  NestedTensor_call (Plain vals) (Some offs) kwargs w0 = (w1, Ok wr) →
  values wr = Ok (ctx, out) →
  _tensor_symint_registry w !! tid offs = _tensor_symint_registry w1 !! tid offs →
  shape g = shape vals →
  stride g = stride vals →
  ∃ grad,
    DifferentiableValues.backward ctx (Plain g) w = (w, Ok grad) ∧
    _size grad = _size wr ∧
    _strides grad = _strides wr ∧
    _ragged_idx grad = _ragged_idx wr ∧
    _offsets grad = _offsets wr ∧
    _values grad = Some g ∧
    requires_grad grad = false.
Proof.
  intros Hcall Hval Hreg Hshape Hstride.
  destruct (call_inv _ _ _ _ _ _ Hcall)
    as (v & o & n & st0 & strest & symbol & [= <-] & [= <-] & Ho & Hst & _ & Hsym & ->).
  cbn in Hval. injection Hval as <- <-. rewrite Hsym in Hreg. rewrite Hst in Hstride.
  eexists. cbn [DifferentiableValues.backward DifferentiableValues.saved_tensors].
  split.
  { apply (call_success _ _ _ _ _ _ _ _ _ Ho Hstride (get_tensor_symint_hit _ _ _ _ Hreg)). }
  cbn. rewrite Hshape. split_and!; reflexivity.
Qed.

Lemma backward_gradient_is_shape_compatible_witness :
  ∃ grad,
    DifferentiableValues.backward (DifferentiableValues.mkFunctionCtx [offsets_a])
      (Plain grad_a) world_a = (world_a, Ok grad) ∧
    _size grad = _size wrapper_a ∧
    _strides grad = _strides wrapper_a ∧
    _ragged_idx grad = _ragged_idx wrapper_a ∧
    _offsets grad = _offsets wrapper_a ∧
    _values grad = Some grad_a ∧
    requires_grad grad = false.
Proof.
  refine (backward_gradient_is_shape_compatible values_a offsets_a grad_a ∅
            session_world world_a world_a wrapper_a
            (DifferentiableValues.mkFunctionCtx [offsets_a]) values_a _ _ _ _ _).
  - vm_compute. reflexivity.
  - reflexivity.
  - reflexivity.
  - reflexivity.
  - reflexivity.
Defined.



(** ** Serialization hooks, further *)

(** X11.  Failures of the unflatten hook.  It raises [AssertionError] unless
    it is handed exactly two tensors, and [KeyError] when [_values] or
    [_offsets] is not among them, in both cases before it touches the
    registry.  It is not atomic: handed offsets that are not rank-1 together
    with a buffer that has free symbols, it raises [AssertionError] from the
    constructor after it has registered the context's symbol for those
    offsets, and the registration stays. *)
Theorem unflatten_failures
    (inner : gmap string Tensor) (meta : FlattenCtx) (w : World) :
  (size inner ≠ 2%nat →
     __tensor_unflatten__ inner meta w = (w, Raise AssertionError)) ∧
  (size inner = 2%nat → inner !! "_values" = None →
     __tensor_unflatten__ inner meta w = (w, Raise (KeyError "_values"))) ∧
  (size inner = 2%nat → is_Some (inner !! "_values") → inner !! "_offsets" = None →
     __tensor_unflatten__ inner meta w = (w, Raise (KeyError "_offsets"))) ∧
  (∀ values offsets,
     size inner = 2%nat →
     inner !! "_values" = Some values → inner !! "_offsets" = Some offsets →
     ndim offsets ≠ 1 →
     __tensor_unflatten__ inner meta w =
       (if has_free_symbols offsets || has_free_symbols values
        then registry_setitem offsets (ctx_ragged_size meta) w else w,
        Raise AssertionError)).
Proof.
  split_and!.
  - intros Hs. unfold __tensor_unflatten__. by rewrite bool_decide_eq_false_2.
  - intros Hs Hv. unfold __tensor_unflatten__. rewrite bool_decide_eq_true_2 by done.
    erewrite bind_Ok by reflexivity.
    erewrite bind_Raise; [reflexivity |]. unfold lift_outcome, py_getitem. by rewrite Hv.
  - intros Hs [v Hv] Ho. unfold __tensor_unflatten__. rewrite bool_decide_eq_true_2 by done.
    erewrite bind_Ok by reflexivity.
    erewrite bind_Ok by (unfold lift_outcome, py_getitem; rewrite Hv; reflexivity).
    erewrite bind_Raise; [reflexivity |]. unfold lift_outcome, py_getitem. by rewrite Ho.
  - intros values offsets Hs Hv Ho Hn.
    rewrite (unflatten_eq _ _ _ _ _ Hs Hv Ho).
    unfold NestedTensor_call. by rewrite (init_bad_offsets _ _ _ _ Hn).
Qed.


Lemma unflatten_failures_witness :
  __tensor_unflatten__ ∅ (mkFlattenCtx false (SingletonInt 1 1)) world_a
    = (world_a, Raise AssertionError) ∧
  __tensor_unflatten__ (<["_values" := values_fake]> (<["_offsets" := offsets_2d]> ∅))
    (mkFlattenCtx false (SingletonInt 1 1)) world_a
    = (registry_setitem offsets_2d (SingletonInt 1 1) world_a, Raise AssertionError).
Proof.
  split.
  - refine (proj1 (unflatten_failures ∅ (mkFlattenCtx false (SingletonInt 1 1)) world_a) _).
    discriminate.
  - refine (proj2 (proj2 (proj2 (unflatten_failures
              (<["_values" := values_fake]> (<["_offsets" := offsets_2d]> ∅))
              (mkFlattenCtx false (SingletonInt 1 1)) world_a)))
              values_fake offsets_2d eq_refl eq_refl eq_refl _).
    discriminate.
Defined.

(** ** The construction helper, further *)

Lemma tensor_to_frame t to_device to_dtype w :
  ∃ w' t', tensor_to t to_device to_dtype w = (w', Ok t') ∧
    shape t' = shape t ∧ stride t' = stride t ∧
    device t' = default (device t) to_device ∧
    dtype t' = default (dtype t) to_dtype ∧
    _tensor_id_counter w' = _tensor_id_counter w ∧
    _tensor_symint_registry w' = _tensor_symint_registry w ∧
    (next_tid w ≤ next_tid w')%positive.
Proof.
  unfold tensor_to. case_bool_decide as Hd.
  - exists w, t. destruct Hd as [-> ->]. split_and!; try done.
  - eexists _, _. split; [reflexivity |]. split_and!; try done. cbn. lia.
Qed.

(** The checks and the values buffer: on a list the checks accept,
    [jagged_from_list] goes on from the values buffer [v] to the offsets and
    the wrapper. *)
Lemma jagged_from_list_accepts tensors lens dt dev trailing offsets_arg dtype_arg device_arg w :
  tensors ≠ [] →
  Forall2 (list_row dt dev trailing) tensors lens →
  ∃ w2 v st0 strest,
    shape v = foldr Z.add 0 lens :: trailing ∧
    stride v = st0 :: strest ∧
    device v = default dev device_arg ∧
    dtype v = default dt dtype_arg ∧
    _tensor_id_counter w2 = _tensor_id_counter w ∧
    _tensor_symint_registry w2 = _tensor_symint_registry w ∧
    (next_tid w < next_tid w2)%positive ∧
    jagged_from_list tensors offsets_arg dtype_arg device_arg w =
      (offsets ←
         match offsets_arg with
         | None =>
           zero ← torch_zeros 1 int64 (device v);
           lens ← lift_outcome (mapM (fun s => py_index s 0) (shape <$> tensors));
           lens_t ← torch_tensor lens (device v);
           sums ← cumsum lens_t;
           torch_cat [zero; sums]
         | Some offsets => mret offsets
         end;
       nt ← nested_view_from_values_offsets v offsets;
       mret (nt, offsets)) w2.
Proof.
  intros Hne Hall.
  destruct (list_rows_checks _ _ _ _ _ Hne Hall) as (Hd & Hv & Hf & Hhead & _ & _).
  destruct tensors as [|t0 rest]; [done |].
  destruct lens as [|len0 lens']; [by apply Forall2_length in Hall |].
  assert (shape t0 = len0 :: trailing ∧ device t0 = dev ∧ dtype t0 = dt) as (Hs0 & Hdev0 & Hdt0).
  { inversion Hall as [|? ? ? ? (? & ? & ? & _)]; by subst. }
  set (v0 := mkTensor (next_tid w) (foldr Z.add 0 (len0 :: lens') :: drop 1 (shape t0))
               (contiguous_stride (foldr Z.add 0 (len0 :: lens') :: drop 1 (shape t0)))
               (dtype t0) (device t0) (concat (elems <$> t0 :: rest)) false).
  destruct (tensor_to_frame v0 device_arg dtype_arg (set_next_tid (Pos.succ (next_tid w)) w))
    as (w2 & v & Hto & Hshape & Hstride & Hdevice & Hdtype & Hc & Hr & Hn).
  exists w2, v. eexists _, _. split_and!.
  - rewrite Hshape. subst v0. cbn. by rewrite Hs0.
  - rewrite Hstride. subst v0. cbn. reflexivity.
  - rewrite Hdevice. subst v0. cbn. by rewrite Hdev0.
  - rewrite Hdtype. subst v0. cbn. by rewrite Hdt0.
  - by rewrite Hc.
  - by rewrite Hr.
  - cbn in Hn. lia.
  - unfold jagged_from_list. rewrite Hd, Hv. cbn [length negb bool_decide decide_rel].
    rewrite !bool_decide_eq_true_2 by done. cbn [negb]. rewrite Hf. cbn [negb].
    erewrite bind_Ok by (rewrite (torch_cat_eq _ _ _ _ Hhead); apply new_tensor_eq).
    fold v0. erewrite bind_Ok by exact Hto. reflexivity.
Qed.

Lemma jagged_from_list_supplied
    (tensors : list Tensor) (lens : list Z) (dt : DType) (dev : Device) (trailing : list Z)
    (dtype_arg : option DType) (device_arg : option Device) (w : World)
    (offs : Tensor) (n : Z) :
  tensors ≠ [] →
  Forall2 (list_row dt dev trailing) tensors lens →
  shape offs = [n] →
  ∃ w' nt v symbol,
    jagged_from_list tensors (Some offs) dtype_arg device_arg w = (w', Ok (nt, offs)) ∧
    _offsets nt = Some offs ∧
    _values nt = Some v ∧
    shape v = foldr Z.add 0 lens :: trailing ∧
    dtype v = default dt dtype_arg ∧
    device v = default dev device_arg ∧
    _size nt = Some (PyInt (n - 1) :: symbol :: (PyInt <$> trailing)) ∧
    _tensor_symint_registry w' !! tid offs = Some symbol ∧
    (∀ s, _tensor_symint_registry w !! tid offs = Some s →
       symbol = s ∧
       _tensor_id_counter w' = _tensor_id_counter w ∧
       _tensor_symint_registry w' = _tensor_symint_registry w).
Proof.
  intros Hne Hall Ho.
  destruct (jagged_from_list_accepts tensors lens dt dev trailing (Some offs)
              dtype_arg device_arg w Hne Hall)
    as (w2 & v & st0 & strest & Hshape & Hstride & Hdev & Hdt & Hc & Hr & _ & ->).
  destruct (get_tensor_symint_returns offs 1 w2) as (w' & symbol & Hg & Hsym).
  erewrite bind_Ok by reflexivity.
  erewrite bind_Ok
    by (unfold nested_view_from_values_offsets; eapply call_success; [exact Ho | exact Hstride | exact Hg]).
  eexists w', _, v, symbol. split; [reflexivity |]. cbn.
  rewrite Hshape. cbn. split_and!; try done.
  intros s Hs. rewrite <- Hr in Hs. rewrite (get_tensor_symint_hit _ _ _ _ Hs) in Hg.
  injection Hg as <- <-. by rewrite Hc, Hr.
Qed.

(** X12.  Supplied offsets are trusted.  For a list the checks accept and
    any rank-1 offsets tensor supplied, [jagged_from_list] returns that very
    object beside a wrapper built on it: the wrapper's batch size is the
    length of the offsets minus one, whatever the number of tensors and the
    contents of the offsets, which are never compared with the list; the
    values buffer has the summed leading extent, the requested dtype and
    device (the list's when none is requested); and when the offsets were
    registered already the wrapper takes their symbol and nothing is
    minted. *)
Theorem jagged_from_list_keeps_supplied_offsets
    (tensors : list Tensor) (lens : list Z) (dt : DType) (dev : Device) (trailing : list Z)
    (dtype_arg : option DType) (device_arg : option Device) (w : World)
    (offs : Tensor) (n : Z) :
  tensors ≠ [] →
  Forall2 (list_row dt dev trailing) tensors lens →
  shape offs = [n] →
  ∃ w' nt v symbol,
    jagged_from_list tensors (Some offs) dtype_arg device_arg w = (w', Ok (nt, offs)) ∧
    _offsets nt = Some offs ∧
    _values nt = Some v ∧
    shape v = foldr Z.add 0 lens :: trailing ∧
    dtype v = default dt dtype_arg ∧
    device v = default dev device_arg ∧
    _size nt = Some (PyInt (n - 1) :: symbol :: (PyInt <$> trailing)) ∧
    _tensor_symint_registry w' !! tid offs = Some symbol ∧
    (∀ s, _tensor_symint_registry w !! tid offs = Some s →
       symbol = s ∧
       _tensor_id_counter w' = _tensor_id_counter w ∧
       _tensor_symint_registry w' = _tensor_symint_registry w).
Proof. apply jagged_from_list_supplied. Qed.

Lemma jagged_from_list_keeps_supplied_offsets_witness :
  ∃ w' nt v symbol,
    jagged_from_list [t_3x4; t_5x4] (Some offsets_5) None None session_world
      = (w', Ok (nt, offsets_5)) ∧
    _offsets nt = Some offsets_5 ∧
    _values nt = Some v ∧
    shape v = [8; 4] ∧
    dtype v = float32 ∧
    device v = cpu ∧
    _size nt = Some [PyInt (5 - 1); symbol; PyInt 4] ∧
    _tensor_symint_registry w' !! tid offsets_5 = Some symbol ∧
    (∀ s, _tensor_symint_registry session_world !! tid offsets_5 = Some s →
       symbol = s ∧
       _tensor_id_counter w' = _tensor_id_counter session_world ∧
       _tensor_symint_registry w' = _tensor_symint_registry session_world).
Proof.
  refine (jagged_from_list_keeps_supplied_offsets [t_3x4; t_5x4] [3; 5] float32 cpu [4]
            None None session_world offsets_5 5 _ _ _).
  - discriminate.
  - repeat constructor; lia.
  - reflexivity.
Defined.

(** The offsets [jagged_from_list] computes are a new object, registered by
    the constructor it ends in. *)
Lemma jagged_from_list_computed tensors lens dt dev trailing dtype_arg device_arg w :
  tensors ≠ [] →
  Forall2 (list_row dt dev trailing) tensors lens →
  foldr Z.add 0 lens < 2 ^ 63 →
  ∃ w3 w' nt offs symbol,
    jagged_from_list tensors None dtype_arg device_arg w = (w', Ok (nt, offs)) ∧
    elems offs = 0 :: running_sums 0 lens ∧
    shape offs = [Z.of_nat (length tensors) + 1] ∧
    (next_tid w < tid offs)%positive ∧
    next_tid w3 = Pos.succ (tid offs) ∧
    _tensor_id_counter w3 = _tensor_id_counter w ∧
    _tensor_symint_registry w3 = _tensor_symint_registry w ∧
    get_tensor_symint offs 1 w3 = (w', Ok symbol) ∧
    _offsets nt = Some offs ∧
    _size nt = Some (PyInt (Z.of_nat (length tensors) + 1 - 1) :: symbol
                       :: (PyInt <$> trailing)).
Proof.
  intros Hne Hall Hsum.
  destruct (list_rows_checks _ _ _ _ _ Hne Hall) as (_ & _ & _ & _ & Hidx & Hpos).
  pose proof (Forall2_length _ _ _ Hall) as Hlen.
  destruct (jagged_from_list_accepts tensors lens dt dev trailing None
              dtype_arg device_arg w Hne Hall)
    as (w2 & v & st0 & strest & Hshape & Hstride & Hdev & Hdt & Hc & Hr & Hn & ->).
  destruct lens as [|len0 lens']; [by destruct tensors |].
  erewrite bind_Ok.
  2:{ erewrite bind_Ok by apply new_tensor_eq.
      erewrite bind_Ok by (unfold lift_outcome; rewrite (mapM_outcome_Ok _ _ _ Hidx); reflexivity).
      erewrite bind_Ok.
      2:{ unfold torch_tensor. rewrite (lens_in_int64 _ Hpos Hsum). apply new_tensor_eq. }
      erewrite bind_Ok by apply new_tensor_eq.
      cbn [shape dtype device elems].
      unfold torch_cat. cbn [mapM shape head mbind option_bind mret option_ret].
      apply new_tensor_eq. }
  cbn [shape dtype device elems foldr drop fmap list_fmap concat app replicate Z.to_nat
       Pos.to_nat Pos.iter_op Nat.add next_tid set_next_tid].
  lazymatch goal with |- context [nested_view_from_values_offsets v ?o] => set (o1 := o) end.
  lazymatch goal with
  | |- context [(nested_view_from_values_offsets v o1 ≫= _) ?w] => set (w3 := w)
  end.
  assert (shape o1 = [Z.of_nat (length tensors) + 1]) as Ho1.
  { subst o1. cbn. f_equal. rewrite Hlen. cbn [length]. lia. }
  destruct (get_tensor_symint_returns o1 1 w3) as (w4 & symbol & Hg & _).
  erewrite bind_Ok
    by (unfold nested_view_from_values_offsets; eapply call_success; [exact Ho1 | exact Hstride | exact Hg]).
  exists w3, w4. eexists _, o1, symbol. split; [reflexivity |].
  split_and!; try done.
  - subst o1. cbn. rewrite app_nil_r. f_equal.
    apply (cumsum_from_running_sums (len0 :: lens') 0); [lia | done | lia].
  - subst o1. cbn. lia.
  - cbn. by rewrite Hshape.
Qed.

Lemma alloc_ok_fresh w p :
  alloc_ok w → (next_tid w ≤ p)%positive → _tensor_symint_registry w !! p = None.
Proof.
  intros Hok Hp. apply not_elem_of_dom. intros Hin. specialize (Hok _ Hin). lia.
Qed.

(** One call without offsets from a state where the allocator is ahead of
    the registry: the new offsets get the symbol minted from the counter. *)
Lemma jagged_from_list_mints tensors lens dt dev trailing dtype_arg device_arg w :
  tensors ≠ [] →
  Forall2 (list_row dt dev trailing) tensors lens →
  foldr Z.add 0 lens < 2 ^ 63 →
  alloc_ok w →
  ∃ w' nt offs,
    jagged_from_list tensors None dtype_arg device_arg w = (w', Ok (nt, offs)) ∧
    elems offs = 0 :: running_sums 0 lens ∧
    shape offs = [Z.of_nat (length tensors) + 1] ∧
    (next_tid w < tid offs)%positive ∧
    _size nt = Some (PyInt (Z.of_nat (length tensors) + 1 - 1)
                       :: SingletonInt (_tensor_id_counter w) 1 :: (PyInt <$> trailing)) ∧
    _tensor_id_counter w' = _tensor_id_counter w + 1 ∧
    _tensor_symint_registry w' =
      <[tid offs := SingletonInt (_tensor_id_counter w) 1]> (_tensor_symint_registry w) ∧
    alloc_ok w'.
Proof.
  intros Hne Hall Hsum Hok.
  destruct (jagged_from_list_computed tensors lens dt dev trailing dtype_arg device_arg w
              Hne Hall Hsum)
    as (w3 & w' & nt & offs & symbol & Hrun & Helems & Hshape & Hlt & Hnext & Hc & Hr
        & Hg & _ & Hsize).
  assert (_tensor_symint_registry w3 !! tid offs = None) as Hnone.
  { rewrite Hr. apply alloc_ok_fresh; [done | lia]. }
  rewrite (get_tensor_symint_miss _ _ _ Hnone) in Hg. injection Hg as <- <-.
  exists (set_counter (_tensor_id_counter w3 + 1)
            (registry_setitem offs (_get_singleton_int (_tensor_id_counter w3) 1) w3)),
         nt, offs.
  split_and!; try done.
  - by rewrite Hsize, Hc.
  - cbn. by rewrite Hc.
  - cbn. by rewrite Hr, Hc.
  - intros k. cbn. rewrite Hr, Hnext, dom_insert_L, elem_of_union, elem_of_singleton.
    intros [-> | Hk]; [lia |]. specialize (Hok _ Hk). lia.
Qed.

(** X13.  Why the helper returns the offsets.  Called twice without offsets
    on the same list, from a state where every registered tensor is an
    object the allocator has handed out, [jagged_from_list] computes two
    offsets tensors with equal elements that are different objects, and the
    two wrappers get different ragged symbols, minted from consecutive
    counter values.  Called the second time with the offsets the first call
    returned, it builds a wrapper with the first wrapper's size and mints
    nothing. *)
Theorem jagged_from_list_mints_per_call
    (tensors : list Tensor) (lens : list Z) (dt : DType) (dev : Device) (trailing : list Z)
    (dtype_arg : option DType) (device_arg : option Device) (w : World) :
  tensors ≠ [] →
  Forall2 (list_row dt dev trailing) tensors lens →
  foldr Z.add 0 lens < 2 ^ 63 →
  alloc_ok w →
  ∃ w1 nt1 offs1 w2 nt2 offs2 w3 nt3 B,
    jagged_from_list tensors None dtype_arg device_arg w = (w1, Ok (nt1, offs1)) ∧
    jagged_from_list tensors None dtype_arg device_arg w1 = (w2, Ok (nt2, offs2)) ∧
    jagged_from_list tensors (Some offs1) dtype_arg device_arg w1 = (w3, Ok (nt3, offs1)) ∧
    elems offs2 = elems offs1 ∧
    (tid offs1 < tid offs2)%positive ∧
    _size nt1 = Some (B :: SingletonInt (_tensor_id_counter w) 1 :: (PyInt <$> trailing)) ∧
    _size nt2 = Some (B :: SingletonInt (_tensor_id_counter w + 1) 1
                        :: (PyInt <$> trailing)) ∧
    _size nt3 = _size nt1 ∧
    _tensor_id_counter w1 = _tensor_id_counter w + 1 ∧
    _tensor_id_counter w2 = _tensor_id_counter w + 2 ∧
    _tensor_id_counter w3 = _tensor_id_counter w + 1.
Proof.
  intros Hne Hall Hsum Hok.
  destruct (jagged_from_list_mints tensors lens dt dev trailing dtype_arg device_arg w
              Hne Hall Hsum Hok)
    as (w1 & nt1 & offs1 & Hrun1 & Hel1 & Hsh1 & Hlt1 & Hsz1 & Hc1 & Hr1 & Hok1).
  destruct (jagged_from_list_mints tensors lens dt dev trailing dtype_arg device_arg w1
              Hne Hall Hsum Hok1)
    as (w2 & nt2 & offs2 & Hrun2 & Hel2 & Hsh2 & Hlt2 & Hsz2 & Hc2 & Hr2 & Hok2).
  assert (_tensor_symint_registry w1 !! tid offs1
          = Some (SingletonInt (_tensor_id_counter w) 1)) as Hreg1
    by (by rewrite Hr1, lookup_insert_eq).
  destruct (jagged_from_list_supplied tensors lens dt dev trailing dtype_arg device_arg w1
              offs1 _ Hne Hall Hsh1)
    as (w3 & nt3 & v3 & sym3 & Hrun3 & _ & _ & _ & _ & _ & Hsz3 & _ & Hhit).
  destruct (Hhit _ Hreg1) as (-> & Hc3 & _).
  assert (tid offs1 ∈ dom (_tensor_symint_registry w1)) as Hin
    by (apply elem_of_dom; eauto).
  specialize (Hok1 _ Hin).
  exists w1, nt1, offs1, w2, nt2, offs2, w3, nt3, (PyInt (Z.of_nat (length tensors) + 1 - 1)).
  split_and!; try done.
  - by rewrite Hel1, Hel2.
  - lia.
  - by rewrite Hsz2, Hc1.
  - by rewrite Hsz3, Hsz1.
  - lia.
  - lia.
Qed.

Lemma alloc_ok_session : alloc_ok session_world.
Proof.
  destruct imported_world_globals as [_ Hr]. intros k. cbn. rewrite Hr.
  rewrite dom_singleton_L, elem_of_singleton. by intros ->.
Qed.

Lemma jagged_from_list_mints_per_call_witness :
  alloc_ok session_world ∧
  ∃ w1 nt1 offs1 w2 nt2 offs2 w3 nt3 B,
    jagged_from_list [t_3x4; t_5x4] None None None session_world = (w1, Ok (nt1, offs1)) ∧
    jagged_from_list [t_3x4; t_5x4] None None None w1 = (w2, Ok (nt2, offs2)) ∧
    jagged_from_list [t_3x4; t_5x4] (Some offs1) None None w1 = (w3, Ok (nt3, offs1)) ∧
    elems offs2 = elems offs1 ∧
    (tid offs1 < tid offs2)%positive ∧
    _size nt1 = Some (B :: SingletonInt (_tensor_id_counter session_world) 1
                        :: (PyInt <$> [4])) ∧
    _size nt2 = Some (B :: SingletonInt (_tensor_id_counter session_world + 1) 1
                        :: (PyInt <$> [4])) ∧
    _size nt3 = _size nt1 ∧
    _tensor_id_counter w1 = _tensor_id_counter session_world + 1 ∧
    _tensor_id_counter w2 = _tensor_id_counter session_world + 2 ∧
    _tensor_id_counter w3 = _tensor_id_counter session_world + 1.
Proof.
  split; [exact alloc_ok_session |].
  refine (jagged_from_list_mints_per_call [t_3x4; t_5x4] [3; 5] float32 cpu [4]
            None None session_world _ _ _ alloc_ok_session).
  - discriminate.
  - repeat constructor; lia.
  - reflexivity.
Defined.
